(** * lb7.py: currency-rate observer over Socket.IO

    A shallow embedding of [src/lb7.py]: the [CurrencyObserver] registry
    (a Python dict keyed by session id), its [register] / [unregister] /
    [notify] methods, [Client.update], [get_currency_rates] and the
    [currency_updater] polling thread, followed by the properties of the
    specification that concern them.

    Python values are modelled as follows.
    - A [dict] is an insertion-ordered association list with unique keys:
      assignment to an existing key keeps its position, assignment to a new
      key appends, [del] removes.  Iteration follows that order.
    - The decoded JSON document is a [json] tree; subscripting, [==] and
      the [in] operator follow Python on every shape of value, and raise
      where Python raises.
    - A currency code is whatever the client sent: [register] stores it as
      it comes, so it is a [json] value too, [JNull] standing for [None].
    - Exceptions are the [Raise] results of a state-and-error monad.
    - The outside world ([requests.get], [response.json()],
      [socketio.emit]) is given by oracles indexed by the number of calls
      made so far; every call and its outcome is appended to a trace. *)

From Stdlib Require Import List String Ascii ZArith Bool Arith Lia.
From Stdlib Require Import PrimFloat FloatOps SpecFloat.
Import ListNotations.
Open Scope string_scope.
Open Scope list_scope.

Set Warnings "-register-all".

(** ** Python values *)

(** What [json.loads] can produce, and so what a decoded message or
    document can hold.  [JNull] is [None]. *)
Inductive json : Type :=
| JNull
| JBool (b : bool)
| JInt (z : Z)
| JFloat (f : float)
| JStr (s : string)
| JList (items : list json)
| JDict (items : list (string * json)).

(** Exceptions that can travel through the program.  [KeyError] is raised
    for a missing string key, [KeyErrorValue] for a missing key that is not
    a string.  [OtherError] stands for whatever the libraries raise
    ([ConnectionError], [JSONDecodeError], ...), named by its class. *)
Inductive exn : Type :=
| KeyError (key : string)
| KeyErrorValue (key : json)
| TypeError (what : string)
| IndexError (what : string)
| OtherError (cls : string).

Inductive Res (A : Type) : Type :=
| Ok (a : A)
| Raise (e : exn).
Arguments Ok {A} a.
Arguments Raise {A} e.

(** *** dict *)

(** An insertion-ordered association list.  The functions below are the
    dict operations the program uses. *)
Definition dict (V : Type) : Type := list (string * V).

(** [d.get(k)] *)
Fixpoint dict_get {V : Type} (k : string) (d : dict V) : option V :=
  match d with
  | [] => None
  | (k', v) :: d' => if String.eqb k k' then Some v else dict_get k d'
  end.

(** [k in d] *)
Definition dict_contains {V : Type} (k : string) (d : dict V) : bool :=
  match dict_get k d with Some _ => true | None => false end.

(** [d[k] = v]: an existing key keeps its position, a new key goes last. *)
Fixpoint dict_setitem {V : Type} (k : string) (v : V) (d : dict V) : dict V :=
  match d with
  | [] => [(k, v)]
  | (k', v') :: d' =>
      if String.eqb k k' then (k, v) :: d' else (k', v') :: dict_setitem k v d'
  end.

Fixpoint dict_remove {V : Type} (k : string) (d : dict V) : dict V :=
  match d with
  | [] => []
  | (k', v') :: d' =>
      if String.eqb k k' then d' else (k', v') :: dict_remove k d'
  end.

(** [del d[k]] raises [KeyError] on a missing key. *)
Definition dict_delitem {V : Type} (k : string) (d : dict V) : Res (dict V) :=
  if dict_contains k d then Ok (dict_remove k d) else Raise (KeyError k).

(** [d[k]] raises [KeyError] on a missing key. *)
Definition dict_getitem {V : Type} (k : string) (d : dict V) : Res V :=
  match dict_get k d with Some v => Ok v | None => Raise (KeyError k) end.

Definition dict_keys {V : Type} (d : dict V) : list string := map fst d.

(** [d.values()], in insertion order. *)
Definition dict_values {V : Type} (d : dict V) : list V := map snd d.

(** The representation invariant of a dict: no key occurs twice. *)
Definition dict_wf {V : Type} (d : dict V) : Prop := NoDup (dict_keys d).

(** *** Subscripting, equality and membership on decoded JSON *)

(** [type(x).__name__] *)
Definition py_type_name (x : json) : string :=
  match x with
  | JNull => "NoneType"
  | JBool _ => "bool"
  | JInt _ => "int"
  | JFloat _ => "float"
  | JStr _ => "str"
  | JList _ => "list"
  | JDict _ => "dict"
  end.

(** [x[k]] for a [str] key [k]. *)
Definition py_getitem (x : json) (k : string) : Res json :=
  match x with
  | JDict items => dict_getitem k items
  | JList _ => Raise (TypeError "list indices must be integers or slices, not str")
  | JStr _ => Raise (TypeError "string indices must be integers, not 'str'")
  | JNull | JBool _ | JInt _ | JFloat _ =>
      Raise (TypeError ("'" ++ py_type_name x ++ "' object is not subscriptable"))
  end.

(** [needle in hay] on two strings. *)
Fixpoint is_substring (needle hay : string) : bool :=
  match hay with
  | EmptyString => String.prefix needle hay
  | String _ hay' => String.prefix needle hay || is_substring needle hay'
  end.

(** Lists and dicts cannot be hashed; every other decoded value can. *)
Definition hashable (x : json) : bool :=
  match x with
  | JList _ | JDict _ => false
  | _ => true
  end.

(** [f == z] for a float and an int: Python compares the exact values. *)
Definition float_eq_int (f : float) (z : Z) : bool :=
  match Prim2SF f with
  | S754_zero _ => (z =? 0)%Z
  | S754_finite sign m e =>
      let v := if sign then Z.neg m else Z.pos m in
      if (0 <=? e)%Z then (z =? v * 2 ^ e)%Z
      else ((v mod 2 ^ (- e) =? 0) && (z =? v / 2 ^ (- e)))%Z
  | S754_infinity _ | S754_nan => false
  end.

(** [a == b] when both are numbers ([bool] counts as the int 0 or 1);
    [None] when one of them is not a number. *)
Definition num_eq (a b : json) : option bool :=
  let as_num (x : json) : option (Z + float) :=
    match x with
    | JBool b => Some (inl (if b then 1 else 0)%Z)
    | JInt z => Some (inl z)
    | JFloat f => Some (inr f)
    | _ => None
    end in
  match as_num a, as_num b with
  | Some (inl x), Some (inl y) => Some (x =? y)%Z
  | Some (inl x), Some (inr g) => Some (float_eq_int g x)
  | Some (inr f), Some (inl y) => Some (float_eq_int f y)
  | Some (inr f), Some (inr g) => Some (PrimFloat.eqb f g)
  | _, _ => None
  end.

(** [a == b] on decoded values: numbers by value across [bool], [int] and
    [float], strings by content, lists item by item, dicts key by key
    whatever the order, and values of different kinds are unequal. *)
Fixpoint py_eq (a b : json) {struct a} : bool :=
  match a, b with
  | JNull, JNull => true
  | JStr s, JStr t => String.eqb s t
  | JList xs, JList ys =>
      (fix eq_items (xs ys : list json) {struct xs} : bool :=
         match xs, ys with
         | [], [] => true
         | x :: xs', y :: ys' => py_eq x y && eq_items xs' ys'
         | _, _ => false
         end) xs ys
  | JDict xs, JDict ys =>
      Nat.eqb (List.length xs) (List.length ys) &&
      (fix eq_fields (xs : list (string * json)) {struct xs} : bool :=
         match xs with
         | [] => true
         | (k, v) :: xs' =>
             match dict_get k ys with
             | Some v' => py_eq v v'
             | None => false
             end && eq_fields xs'
         end) xs
  | _, _ => match num_eq a b with Some r => r | None => false end
  end.

(** [k in x]: key membership on a dict (the key must be hashable), item
    membership by [==] on a list, substring test on a string (the left
    operand must be a string), [TypeError] on anything else.  Python also
    accepts an item that is the very object [k]; a code and the items of a
    fetched document are never the same object unless they are equal. *)
Definition py_contains (k : json) (x : json) : Res bool :=
  match x with
  | JDict items =>
      if hashable k then
        Ok (match k with
            | JStr s => dict_contains s items
            | _ => false
            end)
      else Raise (TypeError ("unhashable type: '" ++ py_type_name k ++ "'"))
  | JList items => Ok (existsb (py_eq k) items)
  | JStr s =>
      match k with
      | JStr needle => Ok (is_substring needle s)
      | _ =>
          Raise (TypeError ("'in <string>' requires string as left operand, not "
                              ++ py_type_name k))
      end
  | JNull | JBool _ | JInt _ | JFloat _ =>
      Raise (TypeError ("argument of type '" ++ py_type_name x
                          ++ "' is not iterable"))
  end.

(** [items[n]] for an int [n]: negative indices count from the end. *)
Definition list_index {A : Type} (what : string) (items : list A) (n : Z)
  : Res A :=
  let len := Z.of_nat (List.length items) in
  if ((n <? - 2 ^ 63) || (2 ^ 63 <=? n))%Z then
    Raise (IndexError "cannot fit 'int' into an index-sized integer")
  else
    let i := if (n <? 0)%Z then (n + len)%Z else n in
    if ((i <? 0) || (len <=? i))%Z then
      Raise (IndexError (what ++ " index out of range"))
    else
      match nth_error items (Z.to_nat i) with
      | Some a => Ok a
      | None => Raise (IndexError (what ++ " index out of range"))
      end.

(** The characters of a string held as UTF-8: each lead byte with the
    continuation bytes that follow it. *)
Fixpoint utf8_chars (s : string) : list string :=
  match s with
  | EmptyString => []
  | String a s' =>
      let continues (b : ascii) : bool :=
        ((128 <=? nat_of_ascii b) && (nat_of_ascii b <? 192))%nat in
      match utf8_chars s' with
      | [] => [String a EmptyString]
      | c :: cs =>
          match s' with
          | String b _ =>
              if continues b then String a c :: cs
              else String a EmptyString :: c :: cs
          | EmptyString => [String a EmptyString]
          end
      end
  end.

(** [x[k]] for any key [k]. *)
Definition py_getitem_at (x : json) (k : json) : Res json :=
  match k with
  | JStr s => py_getitem x s
  | _ =>
      match x with
      | JDict _ =>
          if hashable k then Raise (KeyErrorValue k)
          else Raise (TypeError ("unhashable type: '" ++ py_type_name k ++ "'"))
      | JList items =>
          match k with
          | JInt n => list_index "list" items n
          | JBool b => list_index "list" items (if b then 1 else 0)
          | _ =>
              Raise (TypeError ("list indices must be integers or slices, not "
                                  ++ py_type_name k))
          end
      | JStr s =>
          match k with
          | JInt n =>
              match list_index "string" (utf8_chars s) n with
              | Ok c => Ok (JStr c)
              | Raise e => Raise e
              end
          | JBool b =>
              match list_index "string" (utf8_chars s) (if b then 1 else 0) with
              | Ok c => Ok (JStr c)
              | Raise e => Raise e
              end
          | _ =>
              Raise (TypeError ("string indices must be integers, not '"
                                  ++ py_type_name k ++ "'"))
          end
      | JNull | JBool _ | JInt _ | JFloat _ =>
          Raise (TypeError ("'" ++ py_type_name x
                              ++ "' object is not subscriptable"))
      end
  end.

(** ** Objects of the program *)

(** [class Client]: one attribute, the session id. *)
Record Client : Type := mkClient { sid : string }.

(** A value of [self.observers]: [{'observer': ..., 'currency': ...}].
    The code is stored as it was received, whatever it is. *)
Record Entry : Type := mkEntry { observer : Client; currency : json }.

(** [class CurrencyObserver]: one attribute, the dict of observers. *)
Record CurrencyObserver : Type := mkObserver { observers : dict Entry }.

(** ** The outside world *)

(** The object [requests.get] returns; [json_result] is what calling
    [response.json()] on it does. *)
Record Response : Type := mkResponse {
  status_code : Z;
  json_result : Res json
}.

(** The libraries, as oracles: the [n]-th call of [requests.get] and the
    [n]-th call of [socketio.emit] (counted from 0), with their arguments.
    [socketio_emit] answers [Some e] when the call raises [e]. *)
Record World : Type := mkWorld {
  requests_get : nat -> string -> Res Response;
  socketio_emit : nat -> string -> json -> string -> option exn
}.

(** What the process does that can be seen from outside, in order.
    [Print line] is a printed line whose text is known in full;
    [PrintValue text v] is a printed line made of [text] followed by
    [str(v)] for a value [v] that is not a string, whose rendering by
    Python is not modelled. *)
Inductive event : Type :=
| Print (line : string)
| PrintValue (text : string) (value : json)
| Get (url : string)
| Emit (name : string) (data : json) (room : string) (raised : option exn)
| Sleep (seconds : Z).

(** The process state: the module-level [currency_observer], the number of
    calls made so far to [requests.get] and to [socketio.emit], and the
    trace. *)
Record State : Type := mkState {
  currency_observer : CurrencyObserver;
  gets : nat;
  emits : nat;
  trace : list event
}.

Definition registry (st : State) : dict Entry :=
  observers (currency_observer st).

Definition initial_state : State :=
  mkState (mkObserver []) 0 0 [].

(** ** State and exception monad *)

Definition M (A : Type) : Type := State -> Res A * State.

Definition ret {A : Type} (a : A) : M A := fun st => (Ok a, st).

Definition bind {A B : Type} (m : M A) (f : A -> M B) : M B :=
  fun st =>
    match m st with
    | (Ok a, st') => f a st'
    | (Raise e, st') => (Raise e, st')
    end.

Declare Scope py_scope.
Delimit Scope py_scope with py.
Notation "x <- m ;; k" := (bind m (fun x => k))
  (at level 61, m at next level, right associativity) : py_scope.
Notation "m ;; k" := (bind m (fun _ => k))
  (at level 61, right associativity) : py_scope.
Open Scope py_scope.

(** An expression that may raise and touches no state. *)
Definition lift {A : Type} (r : Res A) : M A := fun st => (r, st).

Definition log (e : event) : M unit :=
  fun st =>
    (Ok tt,
     mkState (currency_observer st) (gets st) (emits st) (trace st ++ [e])).

Definition get_observers : M (dict Entry) :=
  fun st => (Ok (registry st), st).

Definition put_observers (d : dict Entry) : M unit :=
  fun st => (Ok tt, mkState (mkObserver d) (gets st) (emits st) (trace st)).

(** [for x in xs: body(x)] *)
Fixpoint for_each {A : Type} (xs : list A) (body : A -> M unit) : M unit :=
  match xs with
  | [] => ret tt
  | x :: xs' => body x ;; for_each xs' body
  end.

Definition print (line : string) : M unit := log (Print line).

(** [print(f"...{v}")]: [text] followed by [v] as [str] renders it. *)
Definition print_value (text : string) (v : json) : M unit :=
  match v with
  | JStr s => print (text ++ s)
  | _ => log (PrintValue text v)
  end.

(** [time.sleep(seconds)] *)
Definition time_sleep (seconds : Z) : M unit := log (Sleep seconds).

(** ** The program *)

(** *** [CurrencyObserver] *)

(** [CurrencyObserver.register(self, observer, currency_code)] *)
Definition register (observer : Client) (currency_code : json) : M unit :=
  obs <- get_observers ;;
  put_observers
    (dict_setitem (sid observer) (mkEntry observer currency_code) obs) ;;
  print_value ("Клиент " ++ sid observer ++ " подключился и выбрал валюту: ")
    currency_code.

(** [CurrencyObserver.unregister(self, observer)] *)
Definition unregister (observer : Client) : M unit :=
  obs <- get_observers ;;
  if dict_contains (sid observer) obs then
    print ("Клиент " ++ sid observer ++ " отключился") ;;
    obs <- get_observers ;;
    obs' <- lift (dict_delitem (sid observer) obs) ;;
    put_observers obs'
  else ret tt.

(** [socketio.emit(name, data, room=room)]: the call is counted and traced
    with its outcome, and raises when the world says so. *)
Definition emit (w : World) (name : string) (data : json) (room : string)
  : M unit :=
  fun st =>
    let raised := socketio_emit w (emits st) name data room in
    let st' :=
      mkState (currency_observer st) (gets st) (S (emits st))
        (trace st ++ [Emit name data room raised]) in
    match raised with
    | None => (Ok tt, st')
    | Some e => (Raise e, st')
    end.

(** [Client.update(self, data)] *)
Definition update (w : World) (self : Client) (data : json) : M unit :=
  emit w "update" data (sid self).

(** The body of the loop of [notify], for one value of [self.observers]. *)
Definition notify_entry (w : World) (data : json) (entry : Entry) : M unit :=
  let observer := observer entry in
  let currency_code := currency entry in
  valute <- lift (py_getitem data "Valute") ;;
  present <- lift (py_contains currency_code valute) ;;
  if (present : bool) then
    valute <- lift (py_getitem data "Valute") ;;
    currency_info <- lift (py_getitem_at valute currency_code) ;;
    value <- lift (py_getitem currency_info "Value") ;;
    previous <- lift (py_getitem currency_info "Previous") ;;
    let currency_data :=
      JDict [("currency_code", currency_code);
             ("current_rate", value);
             ("previous_rate", previous)] in
    update w observer currency_data
  else ret tt.

(** [CurrencyObserver.notify(self, data)] *)
Definition notify (w : World) (data : json) : M unit :=
  obs <- get_observers ;;
  for_each (dict_values obs) (notify_entry w data).

(** *** Fetching and polling *)

Definition rates_url : string := "https://www.cbr-xml-daily.ru/daily_json.js".

(** [requests.get(url)]: the call is counted and traced. *)
Definition http_get (w : World) (url : string) : M Response :=
  fun st =>
    (requests_get w (gets st) url,
     mkState (currency_observer st) (S (gets st)) (emits st)
       (trace st ++ [Get url])).

(** [get_currency_rates()] *)
Definition get_currency_rates (w : World) : M json :=
  response <- http_get w rates_url ;;
  lift (json_result response).

(** One turn of the [while True] loop of [currency_updater]. *)
Definition cycle (w : World) : M unit :=
  data <- get_currency_rates w ;;
  notify w data ;;
  time_sleep 10.

(** [currency_updater(observer)], run for at most [turns] turns of its loop.
    The loop has no exit: [Ok tt] means that [turns] turns have completed
    and the thread is about to start the next one; [Raise e] means that [e]
    escaped from a turn and ended the thread. *)
Fixpoint currency_updater (w : World) (turns : nat) : M unit :=
  match turns with
  | O => ret tt
  | S turns' => cycle w ;; currency_updater w turns'
  end.

(** *** Connection handlers *)

(** [handle_connect()], for the session [request_sid] that raised the
    event.  Inside a handler [flask_socketio.emit] without a destination
    sends to that session; the send goes through the same server as
    [socketio.emit] and is answered by the same oracle. *)
Definition handle_connect (w : World) (request_sid : string) : M unit :=
  let client_id := request_sid in
  emit w "client_id" (JDict [("id", JStr client_id)]) request_sid.

(** [handle_disconnect()], for the session [request_sid] that raised the
    event. *)
Definition handle_disconnect (request_sid : string) : M unit :=
  let client := mkClient request_sid in
  unregister client.

(** ** Vocabulary of the specification *)

(** A call on the registry. *)
Inductive call : Type :=
| Register (observer : Client) (currency_code : json)
| Unregister (observer : Client).

Definition call_sid (c : call) : string :=
  match c with
  | Register o _ => sid o
  | Unregister o => sid o
  end.

Definition run_call (c : call) : M unit :=
  match c with
  | Register o code => register o code
  | Unregister o => unregister o
  end.

Definition run_calls (cs : list call) : M unit := for_each cs run_call.

(** The last call of [cs] that concerns session [s]. *)
Definition last_call (s : string) (cs : list call) : option call :=
  find (fun c => String.eqb s (call_sid c)) (rev cs).

(** The (sessionId, currencyCode) pairs of a registry, as [notify] reads
    them off the values. *)
Definition entries (d : dict Entry) : list (string * json) :=
  map (fun e => (sid (observer e), currency e)) (dict_values d).

(** The registries the program builds: unique keys, and every value filed
    under the session id of its own client. *)
Definition registry_wf (d : dict Entry) : Prop :=
  dict_wf d /\ Forall (fun kv => sid (observer (snd kv)) = fst kv) d.

(** The events added to the trace between two states. *)
Definition new_events (st st' : State) : list event :=
  skipn (List.length (trace st)) (trace st').

(** Every call of [socketio.emit] in a trace: room and payload. *)
Definition attempts (tr : list event) : list (string * json) :=
  flat_map (fun ev => match ev with
                      | Emit _ data room _ => [(room, data)]
                      | _ => []
                      end) tr.

(** The calls of [socketio.emit] that returned: room and payload. *)
Definition deliveries (tr : list event) : list (string * json) :=
  flat_map (fun ev => match ev with
                      | Emit _ data room None => [(room, data)]
                      | _ => []
                      end) tr.

(** The payloads handed over for one session. *)
Definition delivered_to (s : string) (tr : list event) : list json :=
  map snd (filter (fun rd => String.eqb s (fst rd)) (deliveries tr)).

Definition sleeps (tr : list event) : list Z :=
  flat_map (fun ev => match ev with Sleep n => [n] | _ => [] end) tr.

(** A snapshot entry that carries both rates. *)
Definition is_rate_entry (info : json) : bool :=
  match info with
  | JDict fields =>
      dict_contains "Value" fields && dict_contains "Previous" fields
  | _ => false
  end.

(** The snapshot entry of a code: the keys of a snapshot are strings, so
    only a string code can have one. *)
Definition snapshot_get (code : json) (valute : dict json) : option json :=
  match code with
  | JStr s => dict_get s valute
  | _ => None
  end.

(** The payload the specification asks for, built from the snapshot entry
    of [code]; [None] when the snapshot has no such entry or the entry lacks
    a rate. *)
Definition payload_for (valute : dict json) (code : json) : option json :=
  match snapshot_get code valute with
  | Some (JDict fields) =>
      match dict_get "Value" fields, dict_get "Previous" fields with
      | Some value, Some previous =>
          Some (JDict [("currency_code", code);
                       ("current_rate", value);
                       ("previous_rate", previous)])
      | _, _ => None
      end
  | _ => None
  end.

(** The sends the specification asks for, subscriber by subscriber. *)
Definition expected_sends (valute : dict json) (subscribers : list Entry)
  : list (string * json) :=
  flat_map (fun e => match payload_for valute (currency e) with
                     | Some p => [(sid (observer e), p)]
                     | None => []
                     end) subscribers.

(** Every code of [subscribers] can be looked up in the snapshot (it is
    hashable), and those the snapshot knows find a proper rate entry
    there. *)
Definition rates_usable (valute : dict json) (subscribers : list Entry)
  : bool :=
  forallb (fun e => hashable (currency e) &&
                    match snapshot_get (currency e) valute with
                    | Some info => is_rate_entry info
                    | None => true
                    end) subscribers.

(** What the body of the loop of [notify] computes for one entry before it
    sends anything: the exception it raises, [None] when it skips the entry,
    or the payload it is about to send.  [notify_entry_payload] relates it
    to [notify_entry]. *)
Definition entry_payload (data : json) (entry : Entry) : Res (option json) :=
  match py_getitem data "Valute" with
  | Raise x => Raise x
  | Ok valute =>
      match py_contains (currency entry) valute with
      | Raise x => Raise x
      | Ok false => Ok None
      | Ok true =>
          match py_getitem_at valute (currency entry) with
          | Raise x => Raise x
          | Ok currency_info =>
              match py_getitem currency_info "Value" with
              | Raise x => Raise x
              | Ok value =>
                  match py_getitem currency_info "Previous" with
                  | Raise x => Raise x
                  | Ok previous =>
                      Ok (Some (JDict [("currency_code", currency entry);
                                       ("current_rate", value);
                                       ("previous_rate", previous)]))
                  end
              end
          end
      end
  end.

(** The state after [socketio.emit] has been called once more. *)
Definition after_emit (st : State) (ev : event) : State :=
  mkState (currency_observer st) (gets st) (S (emits st)) (trace st ++ [ev]).

(** The trace event of a send that returned. *)
Definition sent_ok (rd : string * json) : event :=
  Emit "update" (snd rd) (fst rd) None.

(** The state after [requests.get] has been called once more. *)
Definition after_get (st : State) : State :=
  mkState (currency_observer st) (S (gets st)) (emits st)
    (trace st ++ [Get rates_url]).

(** In state [st] the fetch returns a document and the dispatch of that
    document returns. *)
Definition turn_returns (w : World) (st : State) : Prop :=
  exists data st1 st2,
    get_currency_rates w st = (Ok data, st1) /\
    notify w data st1 = (Ok tt, st2).

(** Sends to the sessions of [subscribers] always return. *)
Definition sends_return (w : World) (subscribers : list Entry) : Prop :=
  forall e, In e subscribers ->
  forall n name data, socketio_emit w n name data (sid (observer e)) = None.


(** Every code of [subscribers] is a string. *)
Definition codes_are_strings (subscribers : list Entry) : bool :=
  forallb (fun e => match currency e with JStr _ => true | _ => false end)
    subscribers.

(** The requests and the sleeps of a trace, in order. *)
Definition polls (tr : list event) : list event :=
  filter (fun ev => match ev with
                    | Get _ | Sleep _ => true
                    | _ => false
                    end) tr.

(** [ev] is a send of event ['update'] to the session of one of
    [subscribers], carrying that subscriber's code and the two rates that
    [data] holds for it. *)
Definition rate_update (data : json) (subscribers : list Entry) (ev : event)
  : Prop :=
  exists e valute info value previous raised,
    In e subscribers /\
    py_getitem data "Valute" = Ok valute /\
    py_getitem_at valute (currency e) = Ok info /\
    py_getitem info "Value" = Ok value /\
    py_getitem info "Previous" = Ok previous /\
    ev = Emit "update"
           (JDict [("currency_code", currency e);
                   ("current_rate", value);
                   ("previous_rate", previous)])
           (sid (observer e)) raised.

(** Two worlds that answer alike, status codes apart: the same exception or
    the same [json()] outcome for every request, the same outcome for every
    send. *)
Definition same_answers (w1 w2 : World) : Prop :=
  (forall n url,
      match requests_get w1 n url, requests_get w2 n url with
      | Ok r1, Ok r2 => json_result r1 = json_result r2
      | Raise x1, Raise x2 => x1 = x2
      | _, _ => False
      end) /\
  (forall n name data room,
      socketio_emit w1 n name data room = socketio_emit w2 n name data room).

(** ** Sample data *)

Definition usd_info : json :=
  JDict [("ID", JStr "R01235"); ("NumCode", JStr "840");
         ("CharCode", JStr "USD"); ("Nominal", JInt 1);
         ("Name", JStr "US Dollar");
         ("Value", JFloat 90.0); ("Previous", JFloat 89.5)].

Definition eur_info : json :=
  JDict [("ID", JStr "R01239"); ("NumCode", JStr "978");
         ("CharCode", JStr "EUR"); ("Nominal", JInt 1);
         ("Name", JStr "Euro");
         ("Value", JFloat 98.25); ("Previous", JFloat 97.75)].

Definition sample_valute : dict json :=
  [("USD", usd_info); ("EUR", eur_info)].

Definition sample_data : json :=
  JDict [("Date", JStr "2024-05-08T11:30:00+03:00");
         ("Valute", JDict sample_valute)].

Definition usd_payload : json :=
  JDict [("currency_code", JStr "USD");
         ("current_rate", JFloat 90.0);
         ("previous_rate", JFloat 89.5)].

Definition sample_registry : dict Entry :=
  [("s1", mkEntry (mkClient "s1") (JStr "USD"));
   ("s2", mkEntry (mkClient "s2") (JStr "GBP"));
   ("s3", mkEntry (mkClient "s3") (JStr "USD"))].

(** A registry where session [s2] sent a list as its code. *)
Definition registry_with_list_code : dict Entry :=
  [("s2", mkEntry (mkClient "s2") (JList [JStr "GBP"]));
   ("s3", mkEntry (mkClient "s3") (JStr "USD"))].

Definition state_with_list_code : State :=
  mkState (mkObserver registry_with_list_code) 0 0 [].

Definition sample_state : State :=
  mkState (mkObserver sample_registry) 0 0 [].

(** Every fetch answers 200 with the sample document; every send returns. *)
Definition world_fine : World :=
  mkWorld (fun _ _ => Ok (mkResponse 200 (Ok sample_data)))
          (fun _ _ _ _ => None).

(** The network is down: [requests.get] raises. *)
Definition world_offline : World :=
  mkWorld (fun _ _ => Raise (OtherError "ConnectionError"))
          (fun _ _ _ _ => None).

(** The body is not JSON: [response.json()] raises. *)
Definition world_garbled : World :=
  mkWorld (fun _ _ => Ok (mkResponse 200 (Raise (OtherError "JSONDecodeError"))))
          (fun _ _ _ _ => None).

(** The server answers 503 with a JSON error document. *)
Definition world_unavailable : World :=
  mkWorld (fun _ _ =>
             Ok (mkResponse 503
                   (Ok (JDict [("error", JStr "Service Unavailable")]))))
          (fun _ _ _ _ => None).

(** The server answers 500, and the body is the sample document all the
    same. *)
Definition world_error_with_rates : World :=
  mkWorld (fun _ _ => Ok (mkResponse 500 (Ok sample_data)))
          (fun _ _ _ _ => None).

(** The connection of session [s1] is gone: sending to it raises. *)
Definition world_s1_closed : World :=
  mkWorld (fun _ _ => Ok (mkResponse 200 (Ok sample_data)))
          (fun _ _ _ room =>
             if String.eqb room "s1" then Some (OtherError "ConnectionError")
             else None).

(** * Properties *)

(** ** dict *)

Lemma dict_get_none_iff {V : Type} (k : string) (d : dict V) :
  dict_get k d = None <-> ~ In k (dict_keys d).
Proof.
  induction d as [|[k' v] d IH]; simpl.
  - tauto.
  - destruct (String.eqb_spec k k') as [->|Hne].
    + split; [discriminate | intros H; exfalso; apply H; now left].
    + rewrite IH. split.
      * intros H [Heq|Hin]; [congruence | tauto].
      * intros H Hin. apply H. now right.
Qed.

Lemma dict_contains_false {V : Type} (k : string) (d : dict V) :
  dict_contains k d = false <-> ~ In k (dict_keys d).
Proof.
  unfold dict_contains. rewrite <- dict_get_none_iff.
  destruct (dict_get k d); split; congruence.
Qed.

Lemma dict_get_in {V : Type} (k : string) (v : V) (d : dict V) :
  dict_get k d = Some v -> In (k, v) d.
Proof.
  induction d as [|[k' v'] d IH]; simpl; [discriminate|].
  destruct (String.eqb_spec k k') as [->|Hne].
  - intros [= ->]. now left.
  - intros H. right. auto.
Qed.

Lemma dict_in_get {V : Type} (k : string) (v : V) (d : dict V) :
  dict_wf d -> In (k, v) d -> dict_get k d = Some v.
Proof.
  unfold dict_wf, dict_keys.
  induction d as [|[k' v'] d IH]; simpl; [tauto|].
  intros Hnd [Heq|Hin]; inversion Hnd as [|? ? Hnotin Hnd']; subst.
  - injection Heq as -> ->. now rewrite String.eqb_refl.
  - destruct (String.eqb_spec k k') as [->|Hne]; [|auto].
    exfalso. apply Hnotin. change k' with (fst (k', v)). now apply in_map.
Qed.


Lemma dict_keys_setitem {V : Type} (k k' : string) (v : V) (d : dict V) :
  In k' (dict_keys (dict_setitem k v d)) <-> k' = k \/ In k' (dict_keys d).
Proof.
  induction d as [|[k0 v0] d IH]; simpl.
  - intuition.
  - destruct (String.eqb_spec k k0) as [->|Hne]; simpl.
    + intuition.
    + rewrite IH. intuition.
Qed.

Lemma dict_keys_remove {V : Type} (k k' : string) (d : dict V) :
  In k' (dict_keys (dict_remove k d)) -> In k' (dict_keys d).
Proof.
  induction d as [|[k0 v0] d IH]; simpl; [tauto|].
  destruct (String.eqb_spec k k0) as [->|Hne]; simpl; intuition.
Qed.

Lemma dict_wf_setitem {V : Type} (k : string) (v : V) (d : dict V) :
  dict_wf d -> dict_wf (dict_setitem k v d).
Proof.
  unfold dict_wf.
  induction d as [|[k0 v0] d IH]; simpl; intros Hnd.
  - constructor; [simpl; tauto | constructor].
  - inversion Hnd as [|? ? Hnotin Hnd']; subst.
    destruct (String.eqb_spec k k0) as [->|Hne]; simpl.
    + now constructor.
    + constructor; [|now apply IH].
      intros Hin. apply (dict_keys_setitem k k0 v d) in Hin.
      destruct Hin; [congruence | contradiction].
Qed.

Lemma dict_wf_remove {V : Type} (k : string) (d : dict V) :
  dict_wf d -> dict_wf (dict_remove k d).
Proof.
  unfold dict_wf.
  induction d as [|[k0 v0] d IH]; simpl; intros Hnd; [constructor|].
  inversion Hnd as [|? ? Hnotin Hnd']; subst.
  destruct (String.eqb_spec k k0) as [->|Hne]; simpl; [assumption|].
  constructor; [|now apply IH].
  intros Hin. apply Hnotin. eapply dict_keys_remove; eauto.
Qed.

Lemma dict_get_setitem {V : Type} (k k' : string) (v : V) (d : dict V) :
  dict_get k' (dict_setitem k v d) =
  if String.eqb k' k then Some v else dict_get k' d.
Proof.
  induction d as [|[k0 v0] d IH]; simpl.
  - reflexivity.
  - destruct (String.eqb_spec k k0) as [->|Hne]; simpl.
    + destruct (String.eqb_spec k' k0); reflexivity.
    + rewrite IH. destruct (String.eqb_spec k' k0) as [->|Hne'].
      * destruct (String.eqb_spec k0 k); [congruence | reflexivity].
      * reflexivity.
Qed.

Lemma dict_get_remove {V : Type} (k k' : string) (d : dict V) :
  dict_wf d ->
  dict_get k' (dict_remove k d) =
  if String.eqb k' k then None else dict_get k' d.
Proof.
  unfold dict_wf.
  induction d as [|[k0 v0] d IH]; simpl; intros Hnd.
  - now destruct (String.eqb k' k).
  - inversion Hnd as [|? ? Hnotin Hnd']; subst.
    destruct (String.eqb_spec k k0) as [->|Hne]; simpl.
    + destruct (String.eqb_spec k' k0) as [->|Hne']; [|reflexivity].
      now apply dict_get_none_iff.
    + rewrite (IH Hnd').
      destruct (String.eqb_spec k' k0) as [->|Hne'].
      * destruct (String.eqb_spec k0 k); [congruence | reflexivity].
      * reflexivity.
Qed.

(** ** The registry invariant *)

Lemma registry_wf_empty : registry_wf [].
Proof. split; [constructor | constructor]. Qed.

Lemma registry_wf_setitem (o : Client) (code : json) (d : dict Entry) :
  registry_wf d -> registry_wf (dict_setitem (sid o) (mkEntry o code) d).
Proof.
  intros [Hwf Hall]. split; [now apply dict_wf_setitem|].
  clear Hwf. induction d as [|[k0 v0] d IH]; simpl.
  - constructor; [reflexivity | constructor].
  - inversion Hall as [|? ? H0 Hall']; subst.
    destruct (String.eqb (sid o) k0).
    + constructor; [reflexivity | assumption].
    + constructor; [assumption | now apply IH].
Qed.

Lemma registry_wf_remove (k : string) (d : dict Entry) :
  registry_wf d -> registry_wf (dict_remove k d).
Proof.
  intros [Hwf Hall]. split; [now apply dict_wf_remove|].
  clear Hwf. induction d as [|[k0 v0] d IH]; simpl; [constructor|].
  inversion Hall as [|? ? H0 Hall']; subst.
  destruct (String.eqb k k0); [assumption|].
  constructor; [assumption | now apply IH].
Qed.

Lemma entries_in_iff (d : dict Entry) (s : string) (c : json) :
  registry_wf d ->
  In (s, c) (entries d) <->
  exists e, dict_get s d = Some e /\ currency e = c.
Proof.
  intros [Hwf Hall]. unfold entries, dict_values. rewrite map_map.
  rewrite in_map_iff. rewrite Forall_forall in Hall. split.
  - intros [[k e] [Heq Hin]]. simpl in Heq. injection Heq as Hs Hc.
    pose proof (Hall _ Hin) as Hk. simpl in Hk.
    exists e. split; [|assumption].
    apply dict_in_get; [assumption|]. congruence.
  - intros [e [Hget Hc]]. apply dict_get_in in Hget.
    exists (s, e). split; [|assumption].
    simpl. pose proof (Hall _ Hget) as Hk. simpl in Hk. congruence.
Qed.

Lemma entries_keys (d : dict Entry) :
  registry_wf d -> map fst (entries d) = dict_keys d.
Proof.
  intros [_ Hall]. unfold entries, dict_values, dict_keys.
  rewrite !map_map. apply map_ext_in. intros [k e] Hin.
  rewrite Forall_forall in Hall. exact (Hall _ Hin).
Qed.

Lemma entries_filter_none (d : dict Entry) (s : string) :
  registry_wf d -> dict_get s d = None ->
  filter (fun sc => String.eqb s (fst sc)) (entries d) = [].
Proof.
  intros [_ Hall]. unfold entries, dict_values.
  induction d as [|[k0 e0] d IH]; simpl; [reflexivity|].
  inversion Hall as [|? ? H0 Hall']; subst. simpl in H0. rewrite H0.
  destruct (String.eqb_spec s k0) as [->|Hne]; [discriminate|].
  now apply IH.
Qed.

Lemma entries_filter_one (d : dict Entry) (s : string) (e : Entry) :
  registry_wf d -> dict_get s d = Some e ->
  filter (fun sc => String.eqb s (fst sc)) (entries d) = [(s, currency e)].
Proof.
  intros [Hwf Hall]. revert Hwf Hall.
  unfold dict_wf, dict_keys, entries, dict_values.
  induction d as [|[k0 e0] d IH]; simpl; [discriminate|].
  intros Hnd Hall Hget.
  inversion Hnd as [|? ? Hnotin Hnd']; subst.
  inversion Hall as [|? ? H0 Hall']; subst. simpl in H0. rewrite H0.
  destruct (String.eqb_spec s k0) as [->|Hne].
  - injection Hget as ->. f_equal.
    apply (entries_filter_none d k0).
    + split; [exact Hnd' | exact Hall'].
    + now apply dict_get_none_iff.
  - now apply IH.
Qed.

(** ** [register] and [unregister] *)

Lemma register_eq (o : Client) (code : json) (st : State) :
  register o code st =
  (Ok tt,
   mkState (mkObserver (dict_setitem (sid o) (mkEntry o code) (registry st)))
     (gets st) (emits st)
     (trace st ++
      [match code with
       | JStr s =>
           Print (("Клиент " ++ sid o ++ " подключился и выбрал валюту: ")
                    ++ s)
       | _ =>
           PrintValue ("Клиент " ++ sid o ++ " подключился и выбрал валюту: ")
             code
       end])).
Proof. destruct code; reflexivity. Qed.

Lemma unregister_eq (o : Client) (st : State) :
  unregister o st =
  if dict_contains (sid o) (registry st) then
    (Ok tt,
     mkState (mkObserver (dict_remove (sid o) (registry st)))
       (gets st) (emits st)
       (trace st ++ [Print ("Клиент " ++ sid o ++ " отключился")]))
  else (Ok tt, st).
Proof.
  unfold unregister, bind, get_observers, print, log, lift, put_observers, ret.
  destruct (dict_contains (sid o) (registry st)) eqn:Hc; [|reflexivity].
  unfold dict_delitem, registry in *. simpl. now rewrite Hc.
Qed.

Lemma run_call_effect (c : call) (st : State) :
  registry_wf (registry st) ->
  exists st',
    run_call c st = (Ok tt, st') /\
    registry_wf (registry st') /\
    forall s,
      dict_get s (registry st') =
      if String.eqb s (call_sid c) then
        match c with
        | Register o code => Some (mkEntry o code)
        | Unregister _ => None
        end
      else dict_get s (registry st).
Proof.
  intros Hwf. destruct c as [o code|o]; simpl.
  - rewrite register_eq. eexists. split; [reflexivity|]. split.
    + now apply registry_wf_setitem.
    + intros s. unfold registry at 1. simpl. apply dict_get_setitem.
  - rewrite unregister_eq.
    destruct (dict_contains (sid o) (registry st)) eqn:Hc.
    + eexists. split; [reflexivity|]. split.
      * now apply registry_wf_remove.
      * intros s. unfold registry at 1. simpl.
        apply dict_get_remove. exact (proj1 Hwf).
    + exists st. split; [reflexivity|]. split; [assumption|].
      intros s. destruct (String.eqb_spec s (sid o)) as [->|Hne]; [|reflexivity].
      unfold dict_contains in Hc.
      destruct (dict_get (sid o) (registry st)); [discriminate | reflexivity].
Qed.

Lemma find_snoc {A : Type} (f : A -> bool) (l : list A) (a : A) :
  find f (l ++ [a]) =
  match find f l with
  | Some x => Some x
  | None => if f a then Some a else None
  end.
Proof.
  induction l as [|b l IH]; simpl; [reflexivity|].
  destruct (f b); [reflexivity | exact IH].
Qed.

Lemma last_call_cons (s : string) (c : call) (cs : list call) :
  last_call s (c :: cs) =
  match last_call s cs with
  | Some x => Some x
  | None => if String.eqb s (call_sid c) then Some c else None
  end.
Proof. unfold last_call. simpl. rewrite find_snoc. reflexivity. Qed.

Lemma run_calls_effect (cs : list call) :
  forall st,
    registry_wf (registry st) ->
    exists st',
      run_calls cs st = (Ok tt, st') /\
      registry_wf (registry st') /\
      forall s,
        dict_get s (registry st') =
        match last_call s cs with
        | Some (Register o code) => Some (mkEntry o code)
        | Some (Unregister _) => None
        | None => dict_get s (registry st)
        end.
Proof.
  induction cs as [|c cs IH]; intros st Hwf.
  - exists st. split; [reflexivity|]. split; [assumption|].
    intros s. reflexivity.
  - destruct (run_call_effect c st Hwf) as [st1 [Hrun [Hwf1 Hget1]]].
    destruct (IH st1 Hwf1) as [st2 [Hruns [Hwf2 Hget2]]].
    exists st2. split; [|split; [assumption|]].
    + unfold run_calls in *. simpl. unfold bind. now rewrite Hrun.
    + intros s. rewrite Hget2, last_call_cons.
      destruct (last_call s cs) as [x|]; [reflexivity|].
      rewrite Hget1. destruct (String.eqb s (call_sid c)); [|reflexivity].
      destruct c; reflexivity.
Qed.

(** C6.  Unregistering a session that is not in the registry does nothing:
    the call returns normally and the whole state, registry and trace, is
    what it was. *)
Theorem unregister_absent_noop (o : Client) (st : State) :
  dict_contains (sid o) (registry st) = false ->
  unregister o st = (Ok tt, st).
Proof. intros H. rewrite unregister_eq, H. reflexivity. Qed.

Lemma unregister_absent_noop_witness :
  dict_contains (sid (mkClient "s9")) (registry sample_state) = false /\
  unregister (mkClient "s9") sample_state = (Ok tt, sample_state).
Proof.
  split; [reflexivity|].
  apply (unregister_absent_noop (mkClient "s9") sample_state). reflexivity.
Defined.

(** C4.  Registering session [s] with [c1] and then with [c2] returns
    normally and leaves exactly one entry for [s], with currency [c2]; the
    entries of the other sessions are what they were. *)
Theorem register_twice_last_wins
  (o1 o2 : Client) (s : string) (c1 c2 : json) (st : State) :
  registry_wf (registry st) ->
  sid o1 = s -> sid o2 = s ->
  exists st',
    (register o1 c1 ;; register o2 c2) st = (Ok tt, st') /\
    filter (fun sc => String.eqb s (fst sc)) (entries (registry st'))
      = [(s, c2)] /\
    dict_get s (registry st') = Some (mkEntry o2 c2) /\
    forall s', s' <> s ->
      dict_get s' (registry st') = dict_get s' (registry st).
Proof.
  intros Hwf H1 H2.
  destruct (run_call_effect (Register o1 c1) st Hwf) as [st1 [Hr1 [Hwf1 Hg1]]].
  destruct (run_call_effect (Register o2 c2) st1 Hwf1) as [st2 [Hr2 [Hwf2 Hg2]]].
  simpl in Hr1, Hr2, Hg1, Hg2. rewrite H1 in Hg1. rewrite H2 in Hg2.
  exists st2. split; [unfold bind; now rewrite Hr1|].
  assert (Hs : dict_get s (registry st2) = Some (mkEntry o2 c2)).
  { rewrite Hg2. now rewrite String.eqb_refl. }
  split; [|split; [exact Hs|]].
  - exact (entries_filter_one _ _ _ Hwf2 Hs).
  - intros s' Hne. rewrite Hg2, Hg1.
    destruct (String.eqb_spec s' s); [contradiction | reflexivity].
Qed.

Lemma register_twice_last_wins_witness :
  exists st',
    (register (mkClient "s1") (JStr "EUR") ;; register (mkClient "s1") (JStr "CNY"))
      sample_state = (Ok tt, st') /\
    filter (fun sc => String.eqb "s1" (fst sc)) (entries (registry st'))
      = [("s1", JStr "CNY")] /\
    dict_get "s1" (registry st') = Some (mkEntry (mkClient "s1") (JStr "CNY")) /\
    forall s', s' <> "s1" ->
      dict_get s' (registry st') = dict_get s' (registry sample_state).
Proof.
  apply (register_twice_last_wins (mkClient "s1") (mkClient "s1") "s1"
           (JStr "EUR") (JStr "CNY") sample_state).
  - split.
    + unfold dict_wf. simpl.
      repeat (constructor; [simpl; intuition discriminate|]). constructor.
    + repeat constructor.
  - reflexivity.
  - reflexivity.
Defined.

(** C5.  After any sequence of [register] / [unregister] calls on an empty
    registry, every call having returned normally, the registry holds no
    session twice, and it holds the pair (s, c) exactly when the last call
    of the sequence about session [s] is a registration with currency [c]:
    a session whose last call is [unregister], or that no call mentions, is
    absent. *)
Theorem run_calls_net_effect (cs : list call) (st : State) :
  registry st = [] ->
  exists st',
    run_calls cs st = (Ok tt, st') /\
    NoDup (map fst (entries (registry st'))) /\
    forall s c,
      In (s, c) (entries (registry st')) <->
      exists o, last_call s cs = Some (Register o c).
Proof.
  intros Hempty.
  assert (Hwf : registry_wf (registry st))
    by (rewrite Hempty; apply registry_wf_empty).
  destruct (run_calls_effect cs st Hwf) as [st' [Hrun [Hwf' Hget]]].
  exists st'. split; [assumption|]. split.
  - rewrite (entries_keys _ Hwf'). exact (proj1 Hwf').
  - intros s c. rewrite (entries_in_iff _ s c Hwf'). rewrite Hget, Hempty.
    destruct (last_call s cs) as [[o code|o]|] eqn:Hl; simpl.
    + split.
      * intros [e [[= <-] Hc]]. simpl in Hc. subst. now exists o.
      * intros [o' [= -> ->]]. eexists. split; reflexivity.
    + split; [intros [e [H _]]; discriminate | intros [o' H]; discriminate].
    + split; [intros [e [H _]]; discriminate | intros [o' H]; discriminate].
Qed.

Lemma run_calls_net_effect_witness :
  exists st',
    run_calls [Register (mkClient "a") (JStr "USD"); Register (mkClient "b") (JStr "EUR");
               Register (mkClient "a") (JStr "GBP"); Unregister (mkClient "b");
               Unregister (mkClient "c")] initial_state = (Ok tt, st') /\
    NoDup (map fst (entries (registry st'))) /\
    forall s c,
      In (s, c) (entries (registry st')) <->
      exists o,
        last_call s [Register (mkClient "a") (JStr "USD"); Register (mkClient "b") (JStr "EUR");
                     Register (mkClient "a") (JStr "GBP"); Unregister (mkClient "b");
                     Unregister (mkClient "c")] = Some (Register o c).
Proof.
  apply (run_calls_net_effect
           [Register (mkClient "a") (JStr "USD"); Register (mkClient "b") (JStr "EUR");
            Register (mkClient "a") (JStr "GBP"); Unregister (mkClient "b");
            Unregister (mkClient "c")] initial_state).
  reflexivity.
Defined.

(** ** Traces *)

Lemma new_events_app (st st' : State) (evs : list event) :
  trace st' = trace st ++ evs -> new_events st st' = evs.
Proof.
  unfold new_events. intros ->.
  induction (trace st) as [|a t IH]; simpl; [reflexivity | exact IH].
Qed.

Lemma attempts_app (a b : list event) :
  attempts (a ++ b) = attempts a ++ attempts b.
Proof. unfold attempts. apply flat_map_app. Qed.

Lemma deliveries_app (a b : list event) :
  deliveries (a ++ b) = deliveries a ++ deliveries b.
Proof. unfold deliveries. apply flat_map_app. Qed.

Lemma sleeps_app (a b : list event) : sleeps (a ++ b) = sleeps a ++ sleeps b.
Proof. unfold sleeps. apply flat_map_app. Qed.

Lemma deliveries_sent_ok (l : list (string * json)) :
  deliveries (map sent_ok l) = l.
Proof.
  induction l as [|[room p] l IH]; simpl; [reflexivity | now rewrite IH].
Qed.

Lemma sleeps_sent_ok (l : list (string * json)) : sleeps (map sent_ok l) = [].
Proof. induction l as [|rd l IH]; simpl; [reflexivity | exact IH]. Qed.

Lemma delivered_le_attempted (s : string) (tr : list event) :
  List.length (delivered_to s tr) <=
  List.length (filter (fun rd => String.eqb s (fst rd)) (attempts tr)).
Proof.
  unfold delivered_to. rewrite length_map.
  induction tr as [|ev tr IH]; simpl; [lia|].
  rewrite !filter_app, !length_app.
  destruct ev as [line|text v|url|name data room [x|]|n]; simpl; try lia;
    destruct (String.eqb s room); simpl; lia.
Qed.

Lemma filter_eqb_nodup (s : string) (l : list string) :
  NoDup l -> List.length (filter (String.eqb s) l) <= 1.
Proof.
  induction l as [|a l IH]; simpl; intros Hnd; [lia|].
  inversion Hnd as [|? ? Hnotin Hnd']; subst.
  destruct (String.eqb_spec s a) as [->|Hne]; [|auto].
  simpl. assert (H : filter (String.eqb a) l = []).
  { clear IH Hnd Hnd'. induction l as [|b l IHl]; simpl; [reflexivity|].
    destruct (String.eqb_spec a b) as [->|Hne].
    - exfalso. apply Hnotin. now left.
    - apply IHl. intros Hin. apply Hnotin. now right. }
  rewrite H. simpl. lia.
Qed.

(** ** [notify] *)

Lemma update_eq (w : World) (o : Client) (p : json) (st : State) :
  update w o p st =
  (match socketio_emit w (emits st) "update" p (sid o) with
   | None => Ok tt
   | Some x => Raise x
   end,
   after_emit st
     (Emit "update" p (sid o) (socketio_emit w (emits st) "update" p (sid o)))).
Proof.
  unfold update, emit, after_emit.
  destruct (socketio_emit w (emits st) "update" p (sid o)); reflexivity.
Qed.

(** The body of the loop is its pure part followed by at most one send. *)
Lemma notify_entry_payload (w : World) (data : json) (e : Entry) (st : State) :
  notify_entry w data e st =
  match entry_payload data e with
  | Raise x => (Raise x, st)
  | Ok None => (Ok tt, st)
  | Ok (Some p) => update w (observer e) p st
  end.
Proof.
  unfold notify_entry, entry_payload, bind, lift, ret.
  destruct (py_getitem data "Valute") as [valute|x]; [|reflexivity].
  destruct (py_contains (currency e) valute) as [[|]|x]; try reflexivity.
  destruct (py_getitem_at valute (currency e)) as [info|x]; [|reflexivity].
  destruct (py_getitem info "Value") as [value|x]; [|reflexivity].
  destruct (py_getitem info "Previous") as [previous|x]; reflexivity.
Qed.

Lemma for_each_app {A : Type} (body : A -> M unit) (l1 l2 : list A) :
  forall st,
    for_each (l1 ++ l2) body st =
    match for_each l1 body st with
    | (Ok _, st') => for_each l2 body st'
    | (Raise x, st') => (Raise x, st')
    end.
Proof.
  induction l1 as [|a l1 IH]; intros st; simpl; [reflexivity|].
  unfold bind. destruct (body a st) as [[[]|x] st1]; [apply IH | reflexivity].
Qed.

(** What one pass of the loop can do to the state, whatever the document
    and whatever the sends answer: it appends to the trace at most one send
    per entry, to the session of that entry, and touches nothing else. *)
Lemma notify_loop_frame (w : World) (data : json) (l : list Entry) :
  forall st,
    let r := for_each l (notify_entry w data) st in
    currency_observer (snd r) = currency_observer st /\
    gets (snd r) = gets st /\
    exists evs,
      trace (snd r) = trace st ++ evs /\
      sleeps evs = [] /\
      forall s,
        List.length (filter (fun rd => String.eqb s (fst rd)) (attempts evs)) <=
        List.length (filter (fun e => String.eqb s (sid (observer e))) l).
Proof.
  induction l as [|e l IH]; intros st; simpl.
  - repeat split. exists []. rewrite app_nil_r. repeat split. intros s. simpl. lia.
  - unfold bind. rewrite notify_entry_payload.
    destruct (entry_payload data e) as [[p|]|x]; simpl.
    + rewrite update_eq.
      set (ev := Emit "update" p (sid (observer e))
                   (socketio_emit w (emits st) "update" p (sid (observer e)))).
      assert (Hone : forall s,
                 List.length (filter (fun rd => String.eqb s (fst rd)) (attempts [ev]))
                 <= List.length (filter (fun e0 => String.eqb s (sid (observer e0))) [e])).
      { intros s. simpl. destruct (String.eqb s (sid (observer e))); simpl; lia. }
      destruct (socketio_emit w (emits st) "update" p (sid (observer e))) as [x|] eqn:Hout.
      * simpl. repeat split. exists [ev]. repeat split.
        intros s. specialize (Hone s). simpl in Hone |- *.
        destruct (String.eqb s (sid (observer e))); simpl in *; lia.
      * destruct (IH (after_emit st ev)) as [Hco [Hg [evs [Htr [Hsl Hcnt]]]]].
        simpl in Hco, Hg, Htr.
        split; [exact Hco|]. split; [exact Hg|].
        exists (ev :: evs). split; [|split].
        -- rewrite Htr. now rewrite <- app_assoc.
        -- exact Hsl.
        -- intros s. specialize (Hcnt s). specialize (Hone s).
           change (ev :: evs) with ([ev] ++ evs).
           rewrite attempts_app, filter_app, length_app.
           simpl in Hone |- *.
           destruct (String.eqb s (sid (observer e))); simpl in *; lia.
    + destruct (IH st) as [Hco [Hg [evs [Htr [Hsl Hcnt]]]]].
      split; [exact Hco|]. split; [exact Hg|].
      exists evs. split; [exact Htr|]. split; [exact Hsl|].
      intros s. specialize (Hcnt s).
      destruct (String.eqb s (sid (observer e))); simpl; lia.
    + repeat split. exists []. rewrite app_nil_r. repeat split.
      intros s. simpl. lia.
Qed.

Lemma notify_eq (w : World) (data : json) (st : State) :
  notify w data st =
  for_each (dict_values (registry st)) (notify_entry w data) st.
Proof. reflexivity. Qed.

Lemma notify_nothing_to_do (w : World) (data : json) (st : State) :
  registry st = [] -> notify w data st = (Ok tt, st).
Proof. intros H. rewrite notify_eq, H. reflexivity. Qed.

Lemma registry_sids (d : dict Entry) :
  registry_wf d ->
  map (fun e => sid (observer e)) (dict_values d) = dict_keys d.
Proof.
  intros [_ Hall]. unfold dict_values, dict_keys. rewrite map_map.
  apply map_ext_in. intros [k e] Hin.
  rewrite Forall_forall in Hall. exact (Hall _ Hin).
Qed.

Lemma filter_map_eqb (s : string) (l : list Entry) :
  List.length (filter (fun e => String.eqb s (sid (observer e))) l) =
  List.length (filter (String.eqb s) (map (fun e => sid (observer e)) l)).
Proof.
  induction l as [|e l IH]; simpl; [reflexivity|].
  destruct (String.eqb s (sid (observer e))); simpl; now rewrite IH.
Qed.

Lemma get_currency_rates_eq (w : World) (st : State) :
  get_currency_rates w st =
  (match requests_get w (gets st) rates_url with
   | Ok response => json_result response
   | Raise x => Raise x
   end,
   after_get st).
Proof.
  unfold get_currency_rates, bind, http_get, lift, after_get.
  destruct (requests_get w (gets st) rates_url); reflexivity.
Qed.

Lemma cycle_eq (w : World) (st : State) :
  cycle w st =
  match get_currency_rates w st with
  | (Ok data, st1) =>
      match notify w data st1 with
      | (Ok _, st2) => time_sleep 10 st2
      | (Raise x, st2) => (Raise x, st2)
      end
  | (Raise x, st1) => (Raise x, st1)
  end.
Proof.
  unfold cycle, bind.
  destruct (get_currency_rates w st) as [[data|x] st1]; reflexivity.
Qed.

Lemma notify_keeps_observer (w : World) (data : json) (st : State) :
  currency_observer (snd (notify w data st)) = currency_observer st.
Proof.
  rewrite notify_eq.
  now destruct (notify_loop_frame w data (dict_values (registry st)) st).
Qed.

Lemma cycle_keeps_observer (w : World) (st : State) :
  currency_observer (snd (cycle w st)) = currency_observer st.
Proof.
  rewrite cycle_eq, get_currency_rates_eq.
  destruct (requests_get w (gets st) rates_url) as [response|x];
    [|reflexivity].
  destruct (json_result response) as [data|x]; [|reflexivity].
  pose proof (notify_keeps_observer w data (after_get st)) as H.
  destruct (notify w data (after_get st)) as [[[]|x] st2]; exact H.
Qed.

Lemma currency_updater_keeps_observer (w : World) (turns : nat) :
  forall st,
    currency_observer (snd (currency_updater w turns st)) = currency_observer st.
Proof.
  induction turns as [|turns IH]; intros st; [reflexivity|].
  simpl. unfold bind.
  pose proof (cycle_keeps_observer w st) as H.
  destruct (cycle w st) as [[[]|x] st1]; simpl in H.
  - now rewrite IH.
  - exact H.
Qed.

(** C9.  A dispatch leaves the registry as it found it, for every document
    and every answer of the transport, also when it raises; so does a whole
    turn of the polling loop, and so does the polling thread however long it
    runs.  Only [register] and [unregister] write the registry. *)
Theorem notify_keeps_registry (w : World) (data : json) (st : State) :
  registry (snd (notify w data st)) = registry st /\
  registry (snd (cycle w st)) = registry st /\
  forall turns, registry (snd (currency_updater w turns st)) = registry st.
Proof.
  unfold registry. split; [|split].
  - now rewrite notify_keeps_observer.
  - now rewrite cycle_keeps_observer.
  - intros turns. now rewrite currency_updater_keeps_observer.
Qed.

(** C7.  In one dispatch [socketio.emit] is called at most once for any
    session, so a session is handed at most one payload. *)
Theorem notify_at_most_once (w : World) (data : json) (st : State) (s : string) :
  registry_wf (registry st) ->
  List.length (filter (fun rd => String.eqb s (fst rd))
                 (attempts (new_events st (snd (notify w data st))))) <= 1 /\
  List.length (delivered_to s (new_events st (snd (notify w data st)))) <= 1.
Proof.
  intros Hwf.
  assert (H1 : List.length (filter (fun rd => String.eqb s (fst rd))
                 (attempts (new_events st (snd (notify w data st))))) <= 1).
  { rewrite notify_eq.
    destruct (notify_loop_frame w data (dict_values (registry st)) st)
      as [_ [_ [evs [Htr [_ Hcnt]]]]].
    rewrite (new_events_app _ _ _ Htr).
    specialize (Hcnt s). rewrite filter_map_eqb, (registry_sids _ Hwf) in Hcnt.
    pose proof (filter_eqb_nodup s (dict_keys (registry st)) (proj1 Hwf)). lia. }
  split; [exact H1|].
  pose proof (delivered_le_attempted s (new_events st (snd (notify w data st)))).
  lia.
Qed.

Lemma registry_wf_sample : registry_wf sample_registry.
Proof.
  split.
  - unfold dict_wf. simpl.
    repeat (constructor; [simpl; intuition discriminate|]). constructor.
  - repeat constructor.
Qed.

Lemma notify_at_most_once_witness :
  List.length (filter (fun rd => String.eqb "s1" (fst rd))
                 (attempts (new_events sample_state
                              (snd (notify world_fine sample_data sample_state)))))
    <= 1 /\
  List.length (delivered_to "s1"
                 (new_events sample_state
                    (snd (notify world_fine sample_data sample_state)))) <= 1.
Proof.
  apply (notify_at_most_once world_fine sample_data sample_state "s1").
  exact registry_wf_sample.
Defined.

(** C10.  With an empty registry a dispatch returns normally, sends
    nothing and changes nothing, whatever the document is: the loop body,
    the only place that reads [data['Valute']], does not run. *)
Theorem notify_empty_registry (w : World) (data : json) (st : State) :
  registry st = [] ->
  notify w data st = (Ok tt, st) /\
  attempts (new_events st (snd (notify w data st))) = [].
Proof.
  intros H. rewrite notify_eq, H. simpl. split; [reflexivity|].
  rewrite (new_events_app st st []); [reflexivity|].
  now rewrite app_nil_r.
Qed.

Lemma notify_empty_registry_witness :
  notify world_fine (JStr "not a rate table") initial_state
    = (Ok tt, initial_state) /\
  attempts (new_events initial_state
              (snd (notify world_fine (JStr "not a rate table") initial_state)))
    = [].
Proof.
  apply (notify_empty_registry world_fine (JStr "not a rate table")
           initial_state).
  reflexivity.
Defined.

(** ** Dispatch of a well-formed snapshot *)

Lemma dict_contains_get {V : Type} (k : string) (d : dict V) :
  dict_contains k d = true -> exists v, dict_get k d = Some v.
Proof.
  unfold dict_contains. destruct (dict_get k d) as [v|]; [eauto | discriminate].
Qed.

Lemma payload_for_some (valute : dict json) (code : json) (info : json) :
  snapshot_get code valute = Some info -> is_rate_entry info = true ->
  exists p, payload_for valute code = Some p.
Proof.
  intros Hget Hrate. unfold payload_for. rewrite Hget.
  destruct info as [| | | | |items|fields]; try discriminate.
  simpl in Hrate. apply andb_prop in Hrate. destruct Hrate as [Hv Hp].
  destruct (dict_contains_get _ _ Hv) as [v ->].
  destruct (dict_contains_get _ _ Hp) as [p' ->]. eauto.
Qed.

(** On a document whose [Valute] is a dict, an entry whose code is
    hashable and absent is skipped, and an entry whose code has a proper
    rate entry yields the payload of the specification. *)
Lemma entry_payload_usable
  (top valute : dict json) (e : Entry) :
  dict_get "Valute" top = Some (JDict valute) ->
  hashable (currency e) &&
  match snapshot_get (currency e) valute with
  | Some info => is_rate_entry info
  | None => true
  end = true ->
  entry_payload (JDict top) e = Ok (payload_for valute (currency e)).
Proof.
  intros Hval Huse. apply andb_prop in Huse. destruct Huse as [Hhash Huse].
  unfold entry_payload, payload_for. simpl.
  unfold dict_getitem at 1. rewrite Hval. simpl. rewrite Hhash.
  destruct (currency e) as [| b | z | f | s | items | items];
    try reflexivity; try discriminate.
  simpl in *. unfold dict_contains, dict_getitem.
  destruct (dict_get s valute) as [info|] eqn:Hget; [|reflexivity].
  destruct info as [| | | | |items|fields]; try discriminate.
  simpl in Huse. apply andb_prop in Huse. destruct Huse as [Hv Hp].
  destruct (dict_contains_get _ _ Hv) as [v Hv'].
  destruct (dict_contains_get _ _ Hp) as [p' Hp'].
  simpl. unfold dict_getitem. now rewrite Hv', Hp'.
Qed.

Lemma notify_loop_delivers
  (w : World) (top valute : dict json) (l : list Entry) :
  dict_get "Valute" top = Some (JDict valute) ->
  rates_usable valute l = true ->
  sends_return w l ->
  forall st,
    for_each l (notify_entry w (JDict top)) st =
    (Ok tt,
     mkState (currency_observer st) (gets st)
       (emits st + List.length (expected_sends valute l))
       (trace st ++ map sent_ok (expected_sends valute l))).
Proof.
  intros Hval. induction l as [|e l IH]; intros Huse Hsend st; simpl.
  - unfold ret. rewrite Nat.add_0_r, app_nil_r. now destruct st.
  - simpl in Huse. apply andb_prop in Huse. destruct Huse as [He Hl].
    assert (Hsend' : sends_return w l).
    { intros e' Hin. apply Hsend. now right. }
    unfold bind. rewrite notify_entry_payload.
    rewrite (entry_payload_usable top valute e Hval He).
    destruct (payload_for valute (currency e)) as [p|]; simpl.
    + rewrite update_eq.
      rewrite (Hsend e (or_introl eq_refl)).
      rewrite (IH Hl Hsend'). unfold after_emit, sent_ok. simpl.
      f_equal. f_equal; [lia|]. now rewrite <- app_assoc.
    + apply (IH Hl Hsend').
Qed.

Lemma notify_loop_raises_at
  (w : World) (top valute : dict json) (before after : list Entry)
  (e : Entry) (x : exn) (st : State) :
  dict_get "Valute" top = Some (JDict valute) ->
  rates_usable valute before = true ->
  sends_return w before ->
  entry_payload (JDict top) e = Raise x ->
  for_each (before ++ e :: after) (notify_entry w (JDict top)) st =
  (Raise x,
   mkState (currency_observer st) (gets st)
     (emits st + List.length (expected_sends valute before))
     (trace st ++ map sent_ok (expected_sends valute before))).
Proof.
  intros Hval Huse Hsend Hp. rewrite for_each_app.
  rewrite (notify_loop_delivers w top valute before Hval Huse Hsend st).
  simpl. unfold bind. rewrite notify_entry_payload. now rewrite Hp.
Qed.

Lemma entry_payload_unhashable
  (top valute : dict json) (e : Entry) :
  dict_get "Valute" top = Some (JDict valute) ->
  hashable (currency e) = false ->
  entry_payload (JDict top) e =
  Raise (TypeError ("unhashable type: '" ++ py_type_name (currency e) ++ "'")).
Proof.
  intros Hval Hhash. unfold entry_payload. simpl.
  unfold dict_getitem at 1. rewrite Hval. simpl. now rewrite Hhash.
Qed.

(** C1, as the code has it.  Dispatch of a snapshot to a registry whose
    sends return.
    In general, when every registered code is hashable (a string, a
    number, a boolean or [None]): the dispatch returns normally, leaves the
    registry alone, and what it sends is, subscriber by subscriber in
    registry order, the payload built from the snapshot entry of the
    subscriber's code when the snapshot has that code, and nothing when it
    has not.
    For the registry [(s1,USD), (s2,GBP), (s3,USD)] and a snapshot where USD
    reads 90.0 / 89.5 and GBP is missing: s1 and s3 each get
    {USD, 90.0, 89.5}, and nothing else is sent.
    A code that is a list or a dict is not skipped: at the first
    subscriber with such a code the test [currency_code in data['Valute']]
    raises [TypeError], which leaves [notify]; the subscribers before it
    have been served, it and the ones after it get nothing. *)
Theorem notify_delivers_by_currency :
  (forall (w : World) (top valute : dict json) (st : State),
      dict_get "Valute" top = Some (JDict valute) ->
      rates_usable valute (dict_values (registry st)) = true ->
      sends_return w (dict_values (registry st)) ->
      fst (notify w (JDict top) st) = Ok tt /\
      registry (snd (notify w (JDict top) st)) = registry st /\
      new_events st (snd (notify w (JDict top) st)) =
        map sent_ok (expected_sends valute (dict_values (registry st))) /\
      forall e, In e (dict_values (registry st)) ->
        (snapshot_get (currency e) valute = None ->
         payload_for valute (currency e) = None) /\
        (snapshot_get (currency e) valute <> None ->
         exists p, payload_for valute (currency e) = Some p))
  /\
  (forall (w : World) (top valute fields : dict json) (st : State)
          (s1 s2 s3 : string),
      registry st = [(s1, mkEntry (mkClient s1) (JStr "USD"));
                     (s2, mkEntry (mkClient s2) (JStr "GBP"));
                     (s3, mkEntry (mkClient s3) (JStr "USD"))] ->
      dict_get "Valute" top = Some (JDict valute) ->
      dict_get "USD" valute = Some (JDict fields) ->
      dict_get "Value" fields = Some (JFloat 90.0) ->
      dict_get "Previous" fields = Some (JFloat 89.5) ->
      dict_get "GBP" valute = None ->
      sends_return w (dict_values (registry st)) ->
      fst (notify w (JDict top) st) = Ok tt /\
      registry (snd (notify w (JDict top) st)) = registry st /\
      new_events st (snd (notify w (JDict top) st)) =
        [Emit "update" usd_payload s1 None;
         Emit "update" usd_payload s3 None])
  /\
  (forall (w : World) (top valute : dict json) (before after : list Entry)
          (e : Entry) (st : State),
      dict_values (registry st) = before ++ e :: after ->
      dict_get "Valute" top = Some (JDict valute) ->
      rates_usable valute before = true ->
      sends_return w before ->
      hashable (currency e) = false ->
      (exists what, fst (notify w (JDict top) st) = Raise (TypeError what)) /\
      registry (snd (notify w (JDict top) st)) = registry st /\
      new_events st (snd (notify w (JDict top) st)) =
        map sent_ok (expected_sends valute before)).
Proof.
  assert (General :
    forall (w : World) (top valute : dict json) (st : State),
      dict_get "Valute" top = Some (JDict valute) ->
      rates_usable valute (dict_values (registry st)) = true ->
      sends_return w (dict_values (registry st)) ->
      fst (notify w (JDict top) st) = Ok tt /\
      registry (snd (notify w (JDict top) st)) = registry st /\
      new_events st (snd (notify w (JDict top) st)) =
        map sent_ok (expected_sends valute (dict_values (registry st)))).
  { intros w top valute st Hval Huse Hsend.
    rewrite notify_eq.
    rewrite (notify_loop_delivers w top valute _ Hval Huse Hsend st). simpl.
    split; [reflexivity|]. split; [reflexivity|].
    now apply new_events_app. }
  split; [|split].
  - intros w top valute st Hval Huse Hsend.
    destruct (General w top valute st Hval Huse Hsend) as [H1 [H2 H3]].
    repeat (split; [assumption|]).
    intros e Hin. split.
    + intros Hnone. unfold payload_for. now rewrite Hnone.
    + intros Hsome.
      destruct (snapshot_get (currency e) valute) as [info|] eqn:Hget;
        [|congruence].
      apply (payload_for_some valute (currency e) info Hget).
      unfold rates_usable in Huse. rewrite forallb_forall in Huse.
      specialize (Huse e Hin). apply andb_prop in Huse.
      destruct Huse as [_ Huse]. now rewrite Hget in Huse.
  - intros w top valute fields st s1 s2 s3 Hreg Hval Husd Hv Hp Hgbp Hsend.
    assert (Huse : rates_usable valute (dict_values (registry st)) = true).
    { rewrite Hreg. simpl. rewrite Husd, Hgbp. simpl.
      unfold dict_contains. now rewrite Hv, Hp. }
    destruct (General w top valute st Hval Huse Hsend) as [H1 [H2 H3]].
    repeat (split; [assumption|]).
    rewrite H3, Hreg. simpl. unfold payload_for. simpl.
    rewrite Husd, Hgbp, Hv, Hp. reflexivity.
  - intros w top valute before after e st Hvals Hval Huse Hsend Hhash.
    pose proof (entry_payload_unhashable top valute e Hval Hhash) as Hp.
    assert (Hrun := notify_loop_raises_at w top valute before after e _ st
                      Hval Huse Hsend Hp).
    rewrite notify_eq, Hvals, Hrun. simpl.
    split; [eexists; reflexivity|]. split; [reflexivity|].
    now apply new_events_app.
Qed.

Lemma notify_delivers_by_currency_witness :
  fst (notify world_fine sample_data sample_state) = Ok tt /\
  registry (snd (notify world_fine sample_data sample_state))
    = registry sample_state /\
  new_events sample_state (snd (notify world_fine sample_data sample_state)) =
    [Emit "update" usd_payload "s1" None;
     Emit "update" usd_payload "s3" None].
Proof.
  apply (proj1 (proj2 notify_delivers_by_currency) world_fine
           [("Date", JStr "2024-05-08T11:30:00+03:00");
            ("Valute", JDict sample_valute)]
           sample_valute
           [("ID", JStr "R01235"); ("NumCode", JStr "840");
            ("CharCode", JStr "USD"); ("Nominal", JInt 1);
            ("Name", JStr "US Dollar");
            ("Value", JFloat 90.0); ("Previous", JFloat 89.5)]
           sample_state "s1" "s2" "s3");
    try reflexivity.
  intros e Hin n name data. reflexivity.
Defined.

(** C1, as the specification has it, fails: session s2 has sent a list as
    its code, which [register] stores as it comes.  The list is not a key
    of the snapshot, yet s2 is not skipped: the dispatch raises
    [TypeError] at s2, and s3, whose code USD is in the snapshot and whose
    send would have returned, is handed nothing. *)
Lemma list_code_breaks_dispatch :
  registry
    (snd (run_calls [Register (mkClient "s2") (JList [JStr "GBP"]);
                     Register (mkClient "s3") (JStr "USD")] initial_state))
    = registry state_with_list_code /\
  snapshot_get (JList [JStr "GBP"]) sample_valute = None /\
  payload_for sample_valute (JStr "USD") = Some usd_payload /\
  (forall n name data room, socketio_emit world_fine n name data room = None) /\
  fst (notify world_fine sample_data state_with_list_code)
    = Raise (TypeError "unhashable type: 'list'") /\
  delivered_to "s3"
    (trace (snd (notify world_fine sample_data state_with_list_code))) = [].
Proof. repeat split. Qed.

(** ** Dispatch when a send raises *)

Lemma payload_for_usable (valute : dict json) (code : json) (p : json) :
  payload_for valute code = Some p ->
  hashable code &&
  match snapshot_get code valute with
  | Some info => is_rate_entry info
  | None => true
  end = true.
Proof.
  unfold payload_for.
  destruct code as [| b | z | f | s | items | items]; try discriminate.
  simpl.
  destruct (dict_get s valute) as [info|]; [|reflexivity].
  destruct info as [| | | | |items|fields]; try discriminate.
  simpl. unfold dict_contains.
  destruct (dict_get "Value" fields); [|discriminate].
  destruct (dict_get "Previous" fields); [reflexivity | discriminate].
Qed.

Lemma expected_sends_rooms
  (valute : dict json) (l : list Entry) (room : string) (p : json) :
  In (room, p) (expected_sends valute l) ->
  In room (map (fun e => sid (observer e)) l).
Proof.
  unfold expected_sends. rewrite in_flat_map. intros [e [Hin Hp]].
  destruct (payload_for valute (currency e)); [|contradiction].
  destruct Hp as [[= <- _]|[]]. apply in_map_iff. now exists e.
Qed.

Lemma nodup_app_disjoint {A : Type} (l1 l2 : list A) (a : A) :
  NoDup (l1 ++ l2) -> In a l1 -> In a l2 -> False.
Proof.
  induction l1 as [|b l1 IH]; simpl; [tauto|].
  intros Hnd [->|Hin] Hin2; inversion Hnd as [|? ? Hnotin Hnd']; subst.
  - apply Hnotin. apply in_or_app. now right.
  - now apply IH.
Qed.

Lemma filter_none {A : Type} (f : A -> bool) (l : list A) :
  (forall x, In x l -> f x = false) -> filter f l = [].
Proof.
  induction l as [|a l IH]; simpl; intros H; [reflexivity|].
  rewrite (H a (or_introl eq_refl)). apply IH. intros x Hx. apply H. now right.
Qed.

(** C3, as the code has it.  When the send for one subscriber raises, the
    dispatch stops there and the exception leaves [notify]: the subscribers
    before it in registry order have been served as usual, the failed one
    and all those after it are handed nothing in this dispatch, and the
    registry is unchanged. *)
Theorem notify_stops_at_failed_send
  (w : World) (top valute : dict json) (before after : list Entry)
  (e : Entry) (p : json) (x : exn) (st : State) :
  registry_wf (registry st) ->
  dict_values (registry st) = before ++ e :: after ->
  dict_get "Valute" top = Some (JDict valute) ->
  rates_usable valute before = true ->
  sends_return w before ->
  payload_for valute (currency e) = Some p ->
  (forall n, socketio_emit w n "update" p (sid (observer e)) = Some x) ->
  fst (notify w (JDict top) st) = Raise x /\
  registry (snd (notify w (JDict top) st)) = registry st /\
  new_events st (snd (notify w (JDict top) st)) =
    map sent_ok (expected_sends valute before)
    ++ [Emit "update" p (sid (observer e)) (Some x)] /\
  forall e', In e' (e :: after) ->
    delivered_to (sid (observer e'))
      (new_events st (snd (notify w (JDict top) st))) = [].
Proof.
  intros Hwf Hvals Hval Huse Hsend Hp Hfail.
  assert (Hrun :
    notify w (JDict top) st =
    (Raise x,
     after_emit
       (mkState (currency_observer st) (gets st)
          (emits st + List.length (expected_sends valute before))
          (trace st ++ map sent_ok (expected_sends valute before)))
       (Emit "update" p (sid (observer e)) (Some x)))).
  { rewrite notify_eq, Hvals, for_each_app.
    rewrite (notify_loop_delivers w top valute before Hval Huse Hsend st).
    simpl. unfold bind. rewrite notify_entry_payload.
    rewrite (entry_payload_usable top valute e Hval
               (payload_for_usable valute (currency e) p Hp)).
    rewrite Hp, update_eq. simpl. now rewrite Hfail. }
  assert (Hnew :
    new_events st (snd (notify w (JDict top) st)) =
    map sent_ok (expected_sends valute before)
    ++ [Emit "update" p (sid (observer e)) (Some x)]).
  { apply new_events_app. rewrite Hrun. simpl. now rewrite <- app_assoc. }
  split; [now rewrite Hrun|].
  split; [unfold registry; now rewrite notify_keeps_observer|].
  split; [exact Hnew|].
  intros e' Hin. rewrite Hnew. unfold delivered_to.
  rewrite deliveries_app, deliveries_sent_ok. simpl. rewrite app_nil_r.
  rewrite filter_none; [reflexivity|].
  intros [room q] Hq. simpl. apply expected_sends_rooms in Hq.
  destruct (String.eqb_spec (sid (observer e')) room) as [Heq|Hne];
    [|reflexivity].
  exfalso. subst room.
  pose proof (registry_sids _ Hwf) as Hsids.
  rewrite Hvals, map_app in Hsids.
  assert (Hnd : NoDup (map (fun e0 => sid (observer e0)) before
                       ++ map (fun e0 => sid (observer e0)) (e :: after))).
  { rewrite Hsids. exact (proj1 Hwf). }
  apply (nodup_app_disjoint _ _ _ Hnd Hq).
  apply in_map_iff. now exists e'.
Qed.

Lemma notify_stops_at_failed_send_witness :
  fst (notify world_s1_closed sample_data
         (mkState (mkObserver [("s3", mkEntry (mkClient "s3") (JStr "USD"));
                               ("s1", mkEntry (mkClient "s1") (JStr "USD"));
                               ("s2", mkEntry (mkClient "s2") (JStr "EUR"))]) 0 0 []))
    = Raise (OtherError "ConnectionError") /\
  new_events
    (mkState (mkObserver [("s3", mkEntry (mkClient "s3") (JStr "USD"));
                          ("s1", mkEntry (mkClient "s1") (JStr "USD"));
                          ("s2", mkEntry (mkClient "s2") (JStr "EUR"))]) 0 0 [])
    (snd (notify world_s1_closed sample_data
            (mkState (mkObserver [("s3", mkEntry (mkClient "s3") (JStr "USD"));
                                  ("s1", mkEntry (mkClient "s1") (JStr "USD"));
                                  ("s2", mkEntry (mkClient "s2") (JStr "EUR"))]) 0 0 [])))
    = [Emit "update" usd_payload "s3" None;
       Emit "update" usd_payload "s1" (Some (OtherError "ConnectionError"))].
Proof.
  pose proof
    (notify_stops_at_failed_send world_s1_closed
       [("Date", JStr "2024-05-08T11:30:00+03:00");
        ("Valute", JDict sample_valute)]
       sample_valute
       [mkEntry (mkClient "s3") (JStr "USD")] [mkEntry (mkClient "s2") (JStr "EUR")]
       (mkEntry (mkClient "s1") (JStr "USD")) usd_payload
       (OtherError "ConnectionError")
       (mkState (mkObserver [("s3", mkEntry (mkClient "s3") (JStr "USD"));
                             ("s1", mkEntry (mkClient "s1") (JStr "USD"));
                             ("s2", mkEntry (mkClient "s2") (JStr "EUR"))]) 0 0 []))
    as H.
  destruct H as [H1 [_ [H3 _]]].
  - split.
    + unfold dict_wf. simpl.
      repeat (constructor; [simpl; intuition discriminate|]). constructor.
    + repeat constructor.
  - reflexivity.
  - reflexivity.
  - reflexivity.
  - intros e' [<-|[]] n name data. reflexivity.
  - reflexivity.
  - intros n. reflexivity.
  - split; [exact H1 | exact H3].
Defined.

(** C3, as the specification has it, fails: session s1 is first in the
    registry and its send raises; the exception leaves [notify], and s3,
    whose code is in the snapshot and whose send would have returned, is
    handed nothing. *)
Lemma failed_send_aborts_dispatch :
  socketio_emit world_s1_closed 0 "update" usd_payload "s1"
    = Some (OtherError "ConnectionError") /\
  dict_get "s3" sample_registry = Some (mkEntry (mkClient "s3") (JStr "USD")) /\
  payload_for sample_valute (JStr "USD") = Some usd_payload /\
  (forall n, socketio_emit world_s1_closed n "update" usd_payload "s3" = None) /\
  fst (notify world_s1_closed sample_data sample_state)
    = Raise (OtherError "ConnectionError") /\
  delivered_to "s3" (trace (snd (notify world_s1_closed sample_data sample_state)))
    = [].
Proof. repeat split. Qed.

(** ** The polling thread *)

Lemma currency_updater_raise (w : World) (turns : nat) (st st1 : State) (x : exn) :
  cycle w st = (Raise x, st1) ->
  currency_updater w (S turns) st = (Raise x, st1).
Proof. intros H. simpl. unfold bind. now rewrite H. Qed.

Lemma currency_updater_step (w : World) (turns : nat) (st st1 : State) :
  cycle w st = (Ok tt, st1) ->
  currency_updater w (S turns) st = currency_updater w turns st1.
Proof. intros H. simpl. unfold bind. now rewrite H. Qed.

(** A turn whose fetch and dispatch return ends with [time.sleep(10)]. *)
Lemma cycle_returns (w : World) (st : State) :
  turn_returns w st ->
  exists st',
    cycle w st = (Ok tt, st') /\
    gets st' = S (gets st) /\
    currency_observer st' = currency_observer st /\
    exists evs, trace st' = trace st ++ evs /\ sleeps evs = [10%Z].
Proof.
  intros [data [st1 [st2 [Hget Hnot]]]].
  rewrite cycle_eq, Hget, Hnot.
  assert (Hst1 : st1 = after_get st).
  { rewrite get_currency_rates_eq in Hget. congruence. }
  rewrite notify_eq in Hnot.
  destruct (notify_loop_frame w data (dict_values (registry st1)) st1)
    as [Hco [Hg [evs [Htr Hsl]]]].
  destruct Hsl as [Hsl _].
  rewrite Hnot in Hco, Hg, Htr. simpl in Hco, Hg, Htr.
  eexists. split; [reflexivity|]. simpl.
  split; [now rewrite Hg, Hst1|]. split; [now rewrite Hco, Hst1|].
  exists ([Get rates_url] ++ evs ++ [Sleep 10]). split.
  - rewrite Htr, Hst1. simpl. now rewrite <- !app_assoc.
  - rewrite !sleeps_app, Hsl. reflexivity.
Qed.

Lemma currency_updater_survives (w : World) (turns : nat) :
  forall st,
    (forall k stk, k < turns ->
       currency_updater w k st = (Ok tt, stk) -> turn_returns w stk) ->
    exists st',
      currency_updater w turns st = (Ok tt, st') /\
      gets st' = gets st + turns /\
      currency_observer st' = currency_observer st /\
      exists evs, trace st' = trace st ++ evs /\ sleeps evs = repeat 10%Z turns.
Proof.
  induction turns as [|turns IH]; intros st Hturns.
  - exists st. split; [reflexivity|]. split; [lia|]. split; [reflexivity|].
    exists []. now rewrite app_nil_r.
  - assert (H0 : turn_returns w st).
    { apply (Hturns 0 st); [lia | reflexivity]. }
    destruct (cycle_returns w st H0) as [st1 [Hc [Hg1 [Hco1 [ev1 [Htr1 Hsl1]]]]]].
    destruct (IH st1) as [st' [Hrun [Hg [Hco [evs [Htr Hsl]]]]]].
    { intros k stk Hk Hrun. apply (Hturns (S k) stk); [lia|].
      now rewrite (currency_updater_step w k st st1 Hc). }
    exists st'. split; [now rewrite (currency_updater_step w turns st st1 Hc)|].
    split; [lia|]. split; [congruence|].
    exists (ev1 ++ evs). split.
    + now rewrite Htr, Htr1, <- app_assoc.
    + rewrite sleeps_app, Hsl1, Hsl. reflexivity.
Qed.

Lemma currency_updater_idle (w : World) (turns : nat) :
  forall st,
    registry st = [] ->
    (forall i, i < turns ->
       exists response data,
         requests_get w (gets st + i) rates_url = Ok response /\
         json_result response = Ok data) ->
    exists st',
      currency_updater w turns st = (Ok tt, st') /\
      registry st' = [] /\
      trace st' = trace st ++ List.concat (repeat [Get rates_url; Sleep 10] turns).
Proof.
  induction turns as [|turns IH]; intros st Hreg Hfetch.
  - exists st. split; [reflexivity|]. split; [assumption|].
    simpl. now rewrite app_nil_r.
  - destruct (Hfetch 0) as [response [data [Hget Hjson]]]; [lia|].
    rewrite Nat.add_0_r in Hget.
    assert (Hc : cycle w st =
                 (Ok tt,
                  mkState (currency_observer st) (S (gets st)) (emits st)
                    (trace st ++ [Get rates_url; Sleep 10]))).
    { rewrite cycle_eq, get_currency_rates_eq, Hget, Hjson.
      rewrite notify_nothing_to_do by exact Hreg.
      unfold time_sleep, log, after_get. simpl.
      now rewrite <- app_assoc. }
    destruct (IH (mkState (currency_observer st) (S (gets st)) (emits st)
                    (trace st ++ [Get rates_url; Sleep 10])))
      as [st' [Hrun [Hreg' Htr]]].
    { exact Hreg. }
    { intros i Hi. simpl. replace (S (gets st + i)) with (gets st + S i) by lia.
      apply Hfetch. lia. }
    exists st'. split; [now rewrite (currency_updater_step w turns st _ Hc)|].
    split; [assumption|].
    rewrite Htr. simpl. now rewrite <- app_assoc.
Qed.

(** What makes a fetch fail: [requests.get] raises, or it returns a
    response whose [json()] raises.  The status code plays no part. *)
Lemma get_currency_rates_raises (w : World) (st : State) (x : exn) :
  fst (get_currency_rates w st) = Raise x <->
  requests_get w (gets st) rates_url = Raise x \/
  exists response,
    requests_get w (gets st) rates_url = Ok response /\
    json_result response = Raise x.
Proof.
  rewrite get_currency_rates_eq. unfold fst.
  destruct (requests_get w (gets st) rates_url) as [response|y].
  - split.
    + intros H. right. now exists response.
    + intros [H|[r [[= <-] H]]]; [discriminate | assumption].
  - split.
    + intros [= ->]. now left.
    + intros [[= ->]|[r [H _]]]; [reflexivity | discriminate].
Qed.

(** C2, as the code has it.  A fetch fails when [requests.get] raises or
    [response.json()] raises; the status code is not looked at, and whatever
    [json()] returns is what is dispatched.  When the fetch raises, the turn
    calls [socketio.emit] for nobody and leaves the registry alone, but the
    exception is not caught: it leaves the turn and [currency_updater], so
    the polling thread ends with it and no later turn runs. *)
Theorem fetch_failure_ends_polling :
  (forall (w : World) (st : State) (x : exn),
      fst (get_currency_rates w st) = Raise x ->
      cycle w st = (Raise x, after_get st) /\
      new_events st (after_get st) = [Get rates_url] /\
      attempts (new_events st (after_get st)) = [] /\
      registry (after_get st) = registry st /\
      forall turns, currency_updater w (S turns) st = (Raise x, after_get st))
  /\
  (forall (w : World) (st : State) (response : Response),
      requests_get w (gets st) rates_url = Ok response ->
      get_currency_rates w st = (json_result response, after_get st)).
Proof.
  split.
  - intros w st x Hfail.
    assert (Hc : cycle w st = (Raise x, after_get st)).
    { rewrite cycle_eq. rewrite get_currency_rates_eq in Hfail |- *.
      simpl in Hfail. now rewrite Hfail. }
    assert (Hnew : new_events st (after_get st) = [Get rates_url]).
    { now apply new_events_app. }
    split; [exact Hc|]. split; [exact Hnew|].
    split; [now rewrite Hnew|]. split; [reflexivity|].
    intros turns. now apply currency_updater_raise.
  - intros w st response Hget. now rewrite get_currency_rates_eq, Hget.
Qed.

Lemma fetch_failure_ends_polling_witness :
  cycle world_garbled sample_state
    = (Raise (OtherError "JSONDecodeError"), after_get sample_state) /\
  new_events sample_state (after_get sample_state) = [Get rates_url] /\
  attempts (new_events sample_state (after_get sample_state)) = [] /\
  registry (after_get sample_state) = registry sample_state /\
  forall turns,
    currency_updater world_garbled (S turns) sample_state
      = (Raise (OtherError "JSONDecodeError"), after_get sample_state).
Proof.
  apply (proj1 fetch_failure_ends_polling world_garbled sample_state
           (OtherError "JSONDecodeError")).
  reflexivity.
Defined.

(** C2, as the specification has it, fails: with the network down the fetch
    raises, and so do the turn and the polling thread; started for three
    turns the thread makes one request and is gone.  And a 500 answer is no
    failure for the code: its body is dispatched, here to s1 and s3. *)
Lemma fetch_failure_is_raised :
  fst (get_currency_rates world_offline sample_state)
    = Raise (OtherError "ConnectionError") /\
  fst (cycle world_offline sample_state)
    = Raise (OtherError "ConnectionError") /\
  currency_updater world_offline 3 sample_state
    = (Raise (OtherError "ConnectionError"),
       mkState (mkObserver sample_registry) 1 0 [Get rates_url]) /\
  requests_get world_error_with_rates 0 rates_url
    = Ok (mkResponse 500 (Ok sample_data)) /\
  deliveries (trace (snd (cycle world_error_with_rates sample_state)))
    = [("s1", usd_payload); ("s3", usd_payload)].
Proof. repeat split. Qed.

(** C8, as the code has it.  After every turn in which the fetch and the
    dispatch return normally the thread sleeps 10 and goes on to the next
    turn: as long as the turns return, [turns] turns give [turns] requests
    and [turns] sleeps of 10.  With no subscriber every fetched document
    will do, and the trace is request, sleep 10, request, sleep 10, ...
    An exception raised in a turn is not caught and ends the thread. *)
Theorem polling_rearms_after_good_turn :
  (forall (w : World) (turns : nat) (st : State),
      (forall k stk, k < turns ->
         currency_updater w k st = (Ok tt, stk) -> turn_returns w stk) ->
      exists st',
        currency_updater w turns st = (Ok tt, st') /\
        gets st' = gets st + turns /\
        registry st' = registry st /\
        sleeps (new_events st st') = repeat 10%Z turns)
  /\
  (forall (w : World) (turns : nat) (st : State),
      registry st = [] ->
      (forall i, i < turns ->
         exists response data,
           requests_get w (gets st + i) rates_url = Ok response /\
           json_result response = Ok data) ->
      exists st',
        currency_updater w turns st = (Ok tt, st') /\
        registry st' = [] /\
        new_events st st' = List.concat (repeat [Get rates_url; Sleep 10] turns))
  /\
  (forall (w : World) (turns : nat) (st st1 : State) (x : exn),
      cycle w st = (Raise x, st1) ->
      currency_updater w (S turns) st = (Raise x, st1)).
Proof.
  split; [|split].
  - intros w turns st Hturns.
    destruct (currency_updater_survives w turns st Hturns)
      as [st' [Hrun [Hg [Hco [evs [Htr Hsl]]]]]].
    exists st'. split; [assumption|]. split; [assumption|].
    split; [unfold registry; now rewrite Hco|].
    now rewrite (new_events_app st st' evs Htr).
  - intros w turns st Hreg Hfetch.
    destruct (currency_updater_idle w turns st Hreg Hfetch)
      as [st' [Hrun [Hreg' Htr]]].
    exists st'. split; [assumption|]. split; [assumption|].
    now apply new_events_app.
  - intros w turns st st1 x. apply currency_updater_raise.
Qed.

Lemma polling_rearms_after_good_turn_witness :
  exists st',
    currency_updater world_unavailable 3 initial_state = (Ok tt, st') /\
    registry st' = [] /\
    new_events initial_state st' =
      List.concat (repeat [Get rates_url; Sleep 10] 3).
Proof.
  apply (proj1 (proj2 polling_rearms_after_good_turn)
           world_unavailable 3 initial_state).
  - reflexivity.
  - intros i Hi. eexists. eexists. split; reflexivity.
Defined.

(** C8, as the specification has it, fails: the server answers 503 with a
    JSON error document, the fetch returns it, the dispatch to a non-empty
    registry raises [KeyError] on ['Valute'], and the thread started for
    three turns ends in the first one without ever sleeping. *)
Lemma bad_turn_ends_polling :
  fst (get_currency_rates world_unavailable sample_state)
    = Ok (JDict [("error", JStr "Service Unavailable")]) /\
  currency_updater world_unavailable 3 sample_state
    = (Raise (KeyError "Valute"),
       mkState (mkObserver sample_registry) 1 0 [Get rates_url]) /\
  sleeps (trace (snd (currency_updater world_unavailable 3 sample_state))) = [].
Proof. repeat split. Qed.

(** * Further properties of the code *)

(** ** The registry operations *)

Lemma dict_setitem_absent {V : Type} (k : string) (v : V) (d : dict V) :
  dict_contains k d = false -> dict_setitem k v d = d ++ [(k, v)].
Proof.
  unfold dict_contains.
  induction d as [|[k0 v0] d IH]; simpl; [reflexivity|].
  destruct (String.eqb k k0); [discriminate|].
  intros H. now rewrite IH.
Qed.

Lemma dict_setitem_present_keys {V : Type} (k : string) (v : V) (d : dict V) :
  dict_contains k d = true ->
  dict_keys (dict_setitem k v d) = dict_keys d.
Proof.
  unfold dict_contains.
  induction d as [|[k0 v0] d IH]; simpl; [discriminate|].
  destruct (String.eqb_spec k k0) as [->|Hne]; simpl; [reflexivity|].
  intros H. now rewrite IH.
Qed.


Lemma dict_remove_length {V : Type} (k : string) (d : dict V) :
  dict_contains k d = true ->
  S (List.length (dict_remove k d)) = List.length d.
Proof.
  unfold dict_contains.
  induction d as [|[k0 v0] d IH]; simpl; [discriminate|].
  destruct (String.eqb k k0); simpl; [reflexivity|].
  intros H. now rewrite IH.
Qed.


Lemma dict_get_remove_other {V : Type} (k k' : string) (d : dict V) :
  k' <> k -> dict_get k' (dict_remove k d) = dict_get k' d.
Proof.
  intros Hne. induction d as [|[k0 v0] d IH]; simpl; [reflexivity|].
  destruct (String.eqb_spec k k0) as [->|Hne0]; simpl.
  - destruct (String.eqb_spec k' k0); [contradiction | reflexivity].
  - now rewrite IH.
Qed.

Lemma registry_register (o : Client) (code : json) (st : State) :
  registry (snd (register o code st))
    = dict_setitem (sid o) (mkEntry o code) (registry st).
Proof. rewrite register_eq. reflexivity. Qed.

Lemma registry_unregister (o : Client) (st : State) :
  registry (snd (unregister o st))
    = if dict_contains (sid o) (registry st)
      then dict_remove (sid o) (registry st)
      else registry st.
Proof.
  rewrite unregister_eq.
  now destruct (dict_contains (sid o) (registry st)).
Qed.

Lemma unregister_returns (o : Client) (st : State) :
  fst (unregister o st) = Ok tt.
Proof.
  rewrite unregister_eq.
  now destruct (dict_contains (sid o) (registry st)).
Qed.

Lemma unregister_absent_state (o : Client) (st : State) :
  dict_contains (sid o) (registry st) = false ->
  unregister o st = (Ok tt, st).
Proof. intros H. now rewrite unregister_eq, H. Qed.



(** X2.  Where [register] puts the entry: a session that was not in the
    registry goes last, so it is served last by the next dispatch; a session
    that was in it keeps its place, whatever code it changes to. *)
Theorem register_keeps_order (o : Client) (code : json) (st : State) :
  (dict_contains (sid o) (registry st) = false ->
   registry (snd (register o code st))
     = registry st ++ [(sid o, mkEntry o code)]) /\
  (dict_contains (sid o) (registry st) = true ->
   dict_keys (registry (snd (register o code st)))
     = dict_keys (registry st)).
Proof.
  rewrite registry_register. split; intros H.
  - now apply dict_setitem_absent.
  - now apply dict_setitem_present_keys.
Qed.

Lemma register_keeps_order_witness :
  registry (snd (register (mkClient "s4") (JStr "EUR") sample_state))
    = registry sample_state ++ [("s4", mkEntry (mkClient "s4") (JStr "EUR"))] /\
  dict_keys (registry (snd (register (mkClient "s1") (JStr "EUR") sample_state)))
    = dict_keys (registry sample_state).
Proof.
  split.
  - apply (proj1 (register_keeps_order (mkClient "s4") (JStr "EUR") sample_state)).
    reflexivity.
  - apply (proj2 (register_keeps_order (mkClient "s1") (JStr "EUR") sample_state)).
    reflexivity.
Defined.

(** X3.  [unregister] of a session that is in the registry returns
    normally, prints its one line, and removes that session and no other:
    the registry no longer answers for it, answers for every other session
    as before, and is one entry shorter. *)
Theorem unregister_present_removes (o : Client) (st : State) :
  dict_wf (registry st) ->
  dict_contains (sid o) (registry st) = true ->
  fst (unregister o st) = Ok tt /\
  dict_get (sid o) (registry (snd (unregister o st))) = None /\
  (forall s, s <> sid o ->
     dict_get s (registry (snd (unregister o st)))
       = dict_get s (registry st)) /\
  S (List.length (registry (snd (unregister o st))))
    = List.length (registry st) /\
  new_events st (snd (unregister o st))
    = [Print ("Клиент " ++ sid o ++ " отключился")].
Proof.
  intros Hwf Hin. rewrite registry_unregister, Hin.
  split; [apply unregister_returns|]. split; [|split; [|split]].
  - rewrite (dict_get_remove (sid o) (sid o) _ Hwf).
    now rewrite String.eqb_refl.
  - intros s Hne. now apply dict_get_remove_other.
  - now apply dict_remove_length.
  - apply new_events_app. rewrite unregister_eq, Hin. reflexivity.
Qed.

Lemma unregister_present_removes_witness :
  fst (unregister (mkClient "s2") sample_state) = Ok tt /\
  dict_get "s2" (registry (snd (unregister (mkClient "s2") sample_state)))
    = None /\
  new_events sample_state (snd (unregister (mkClient "s2") sample_state))
    = [Print "Клиент s2 отключился"].
Proof.
  destruct (unregister_present_removes (mkClient "s2") sample_state)
    as [H1 [H2 [_ [_ H5]]]].
  - exact (proj1 registry_wf_sample).
  - reflexivity.
  - split; [exact H1|]. split; [exact H2 | exact H5].
Defined.



(** X5.  [unregister] is idempotent: calling it a second time for the same
    session returns normally and leaves the state, trace included, as the
    first call left it. *)
Theorem unregister_twice (o : Client) (st : State) :
  dict_wf (registry st) ->
  (unregister o ;; unregister o) st = unregister o st.
Proof.
  intros Hwf. unfold bind. rewrite (unregister_eq o st).
  destruct (dict_contains (sid o) (registry st)) eqn:Hin.
  - apply unregister_absent_state.
    assert (H : dict_get (sid o) (dict_remove (sid o) (registry st)) = None).
    { rewrite (dict_get_remove (sid o) (sid o) _ Hwf).
      now rewrite String.eqb_refl. }
    unfold dict_contains, registry in *. simpl. now rewrite H.
  - now apply unregister_absent_state.
Qed.

Lemma unregister_twice_witness :
  (unregister (mkClient "s1") ;; unregister (mkClient "s1")) sample_state
    = unregister (mkClient "s1") sample_state.
Proof.
  apply (unregister_twice (mkClient "s1") sample_state).
  exact (proj1 registry_wf_sample).
Defined.





(** ** What a dispatch can send *)

Lemma entry_payload_inv (data : json) (e : Entry) (p : json) :
  entry_payload data e = Ok (Some p) ->
  exists valute info value previous,
    py_getitem data "Valute" = Ok valute /\
    py_getitem_at valute (currency e) = Ok info /\
    py_getitem info "Value" = Ok value /\
    py_getitem info "Previous" = Ok previous /\
    p = JDict [("currency_code", currency e);
               ("current_rate", value);
               ("previous_rate", previous)].
Proof.
  unfold entry_payload.
  destruct (py_getitem data "Valute") as [valute|x] eqn:H1; [|discriminate].
  destruct (py_contains (currency e) valute) as [[|]|x]; try discriminate.
  destruct (py_getitem_at valute (currency e)) as [info|x] eqn:H2;
    [|discriminate].
  destruct (py_getitem info "Value") as [value|x] eqn:H3; [|discriminate].
  destruct (py_getitem info "Previous") as [previous|x] eqn:H4;
    [|discriminate].
  intros [= <-]. exists valute, info, value, previous.
  repeat split; assumption.
Qed.

Lemma rate_update_weaken (data : json) (l l' : list Entry) (ev : event) :
  (forall e, In e l -> In e l') ->
  rate_update data l ev -> rate_update data l' ev.
Proof.
  intros Hsub [e [valute [info [value [previous [raised [Hin H]]]]]]].
  exists e, valute, info, value, previous, raised. split; [auto | exact H].
Qed.

Lemma notify_loop_updates (w : World) (data : json) (l : list Entry) :
  forall st,
    exists evs,
      trace (snd (for_each l (notify_entry w data) st)) = trace st ++ evs /\
      Forall (rate_update data l) evs /\
      emits (snd (for_each l (notify_entry w data) st))
        = emits st + List.length evs /\
      List.length evs <= List.length l.
Proof.
  induction l as [|e l IH]; intros st; simpl.
  - exists []. rewrite app_nil_r.
    split; [reflexivity|]. split; [constructor|]. split; simpl; lia.
  - unfold bind. rewrite notify_entry_payload.
    destruct (entry_payload data e) as [[p|]|x] eqn:Hp.
    + rewrite update_eq.
      set (raised := socketio_emit w (emits st) "update" p (sid (observer e))).
      assert (Hev : rate_update data (e :: l)
                      (Emit "update" p (sid (observer e)) raised)).
      { destruct (entry_payload_inv data e p Hp)
          as [valute [info [value [previous [H1 [H2 [H3 [H4 ->]]]]]]]].
        exists e, valute, info, value, previous, raised.
        split; [now left|]. repeat split; assumption. }
      destruct raised as [x|] eqn:Hr.
      * exists [Emit "update" p (sid (observer e)) (Some x)]. simpl.
        split; [reflexivity|]. split; [now constructor|]. split; lia.
      * destruct (IH (after_emit st (Emit "update" p (sid (observer e)) None)))
          as [evs [Htr [Hall [Hem Hlen]]]].
        exists (Emit "update" p (sid (observer e)) None :: evs).
        split; [|split; [|split]].
        -- rewrite Htr. simpl. now rewrite <- app_assoc.
        -- constructor; [exact Hev|].
           eapply Forall_impl; [|exact Hall].
           intros ev. apply rate_update_weaken. intros e0 H0. now right.
        -- rewrite Hem. simpl. lia.
        -- simpl. lia.
    + destruct (IH st) as [evs [Htr [Hall [Hem Hlen]]]].
      exists evs. split; [exact Htr|]. split; [|split; [exact Hem | lia]].
      eapply Forall_impl; [|exact Hall].
      intros ev. apply rate_update_weaken. intros e0 H0. now right.
    + exists []. simpl. rewrite app_nil_r.
      split; [reflexivity|]. split; [constructor|]. split; simpl; lia.
Qed.

Lemma notify_updates (w : World) (data : json) (st : State) :
  Forall (rate_update data (dict_values (registry st)))
    (new_events st (snd (notify w data st))) /\
  emits (snd (notify w data st))
    = emits st + List.length (new_events st (snd (notify w data st))) /\
  List.length (new_events st (snd (notify w data st)))
    <= List.length (registry st).
Proof.
  rewrite notify_eq.
  destruct (notify_loop_updates w data (dict_values (registry st)) st)
    as [evs [Htr [Hall [Hem Hlen]]]].
  rewrite (new_events_app _ _ _ Htr).
  unfold dict_values in Hlen. rewrite length_map in Hlen.
  repeat split; assumption.
Qed.


Lemma notify_not_for_strangers
  (w : World) (data : json) (st : State) (s : string) :
  registry_wf (registry st) ->
  dict_contains s (registry st) = false ->
  filter (fun rd => String.eqb s (fst rd))
    (attempts (new_events st (snd (notify w data st)))) = [].
Proof.
  intros Hwf Habs. apply filter_none. intros [room p] Hin. simpl.
  destruct (String.eqb_spec s room) as [->|Hne]; [|reflexivity].
  exfalso. apply dict_contains_false in Habs. apply Habs.
  rewrite <- (registry_sids _ Hwf).
  unfold attempts in Hin. apply in_flat_map in Hin.
  destruct Hin as [ev [Hev Hrd]].
  destruct (notify_updates w data st) as [Hall _].
  rewrite Forall_forall in Hall.
  destruct (Hall ev Hev)
    as [e [valute [info [value [previous [raised [He [_ [_ [_ [_ ->]]]]]]]]]]].
  simpl in Hrd. destruct Hrd as [[= <- _]|[]].
  apply in_map_iff. now exists e.
Qed.

(** X8.  A session that is not in the registry gets no send from a
    dispatch, whatever the document holds. *)
Theorem notify_skips_unregistered
  (w : World) (data : json) (st : State) (s : string) :
  registry_wf (registry st) ->
  dict_contains s (registry st) = false ->
  filter (fun rd => String.eqb s (fst rd))
    (attempts (new_events st (snd (notify w data st)))) = [].
Proof. apply notify_not_for_strangers. Qed.

Lemma notify_skips_unregistered_witness :
  filter (fun rd => String.eqb "s7" (fst rd))
    (attempts (new_events sample_state
                 (snd (notify world_fine sample_data sample_state)))) = [].
Proof.
  apply (notify_skips_unregistered world_fine sample_data sample_state "s7").
  - exact registry_wf_sample.
  - reflexivity.
Defined.

(** X9.  After [handle_disconnect] for a session, which never raises, a
    dispatch sends that session nothing: a client that has gone is not
    written to, whether or not it had selected a currency. *)
Theorem disconnected_session_gets_nothing
  (w : World) (data : json) (st : State) (s : string) :
  registry_wf (registry st) ->
  fst (handle_disconnect s st) = Ok tt /\
  filter (fun rd => String.eqb s (fst rd))
    (attempts (new_events (snd (handle_disconnect s st))
                 (snd (notify w data (snd (handle_disconnect s st)))))) = [].
Proof.
  intros Hwf. unfold handle_disconnect.
  split; [apply unregister_returns|].
  apply notify_not_for_strangers.
  - rewrite registry_unregister.
    destruct (dict_contains (sid (mkClient s)) (registry st));
      [now apply registry_wf_remove | assumption].
  - rewrite registry_unregister. simpl.
    destruct (dict_contains s (registry st)) eqn:Hin; [|assumption].
    unfold dict_contains.
    rewrite (dict_get_remove s s _ (proj1 Hwf)).
    now rewrite String.eqb_refl.
Qed.

Lemma disconnected_session_gets_nothing_witness :
  fst (handle_disconnect "s1" sample_state) = Ok tt /\
  filter (fun rd => String.eqb "s1" (fst rd))
    (attempts
       (new_events (snd (handle_disconnect "s1" sample_state))
          (snd (notify world_fine sample_data
                  (snd (handle_disconnect "s1" sample_state)))))) = [].
Proof.
  apply (disconnected_session_gets_nothing world_fine sample_data
           sample_state "s1").
  exact registry_wf_sample.
Defined.

(** X10.  When [data['Valute']] raises, because the document is a dict
    without that key or is no dict at all, a dispatch to a non-empty
    registry raises that exception at the first entry and leaves the state
    as it was: nothing is sent to anybody. *)
Theorem notify_document_without_valute
  (w : World) (data : json) (x : exn) (st : State) :
  registry st <> [] ->
  py_getitem data "Valute" = Raise x ->
  notify w data st = (Raise x, st).
Proof.
  intros Hne Hval. rewrite notify_eq.
  destruct (registry st) as [|[k e] d]; [contradiction|].
  simpl. unfold bind. rewrite notify_entry_payload.
  unfold entry_payload. now rewrite Hval.
Qed.

Lemma notify_document_without_valute_witness :
  notify world_fine (JDict [("error", JStr "Service Unavailable")])
    sample_state
    = (Raise (KeyError "Valute"), sample_state) /\
  notify world_fine (JList []) sample_state
    = (Raise (TypeError "list indices must be integers or slices, not str"),
       sample_state).
Proof.
  split.
  - apply (notify_document_without_valute world_fine
             (JDict [("error", JStr "Service Unavailable")])
             (KeyError "Valute") sample_state).
    + discriminate.
    + reflexivity.
  - apply (notify_document_without_valute world_fine (JList [])
             (TypeError "list indices must be integers or slices, not str")
             sample_state).
    + discriminate.
    + reflexivity.
Defined.

(** X11.  When every registered code is a string, a dispatch sends
    something only when [data['Valute']] is a dict: when it is a list, a
    string, a number or anything else, no send is made to any subscriber.
    (An int code can index a list, so the codes do matter.) *)
Theorem notify_sends_need_valute_dict
  (w : World) (data : json) (st : State) :
  codes_are_strings (dict_values (registry st)) = true ->
  (forall items, py_getitem data "Valute" <> Ok (JDict items)) ->
  new_events st (snd (notify w data st)) = [].
Proof.
  intros Hstr Hnot. destruct (notify_updates w data st) as [Hall _].
  destruct (new_events st (snd (notify w data st))) as [|ev evs];
    [reflexivity|].
  exfalso. inversion Hall as [|? ? Hev _]; subst.
  destruct Hev
    as [e [valute [info [value [previous [raised [Hin [H1 [H2 _]]]]]]]]].
  unfold codes_are_strings in Hstr. rewrite forallb_forall in Hstr.
  specialize (Hstr e Hin).
  destruct (currency e) as [| b | z | f | s | xs | xs]; try discriminate.
  simpl in H2.
  destruct valute as [| | | | |xs|xs]; try discriminate.
  exact (Hnot xs H1).
Qed.

Lemma notify_sends_need_valute_dict_witness :
  new_events sample_state
    (snd (notify world_fine (JDict [("Valute", JStr "USD EUR GBP")])
            sample_state)) = [].
Proof.
  apply (notify_sends_need_valute_dict world_fine
           (JDict [("Valute", JStr "USD EUR GBP")]) sample_state).
  - reflexivity.
  - intros items. discriminate.
Defined.

(** X12.  A snapshot entry that lacks a rate stops the dispatch: when a
    subscriber's code is in the snapshot but its entry has no ['Value'], or
    has one but no ['Previous'], the dispatch raises [KeyError] for the
    missing field at that subscriber.  The subscribers before it have been
    served; it and the ones after it get nothing. *)
Theorem notify_incomplete_rate_entry
  (w : World) (top valute fields : dict json) (before after : list Entry)
  (e : Entry) (st : State) :
  dict_values (registry st) = before ++ e :: after ->
  dict_get "Valute" top = Some (JDict valute) ->
  rates_usable valute before = true ->
  sends_return w before ->
  snapshot_get (currency e) valute = Some (JDict fields) ->
  dict_contains "Value" fields && dict_contains "Previous" fields = false ->
  fst (notify w (JDict top) st) =
    Raise (KeyError (if dict_contains "Value" fields
                     then "Previous" else "Value")) /\
  new_events st (snd (notify w (JDict top) st))
    = map sent_ok (expected_sends valute before).
Proof.
  intros Hvals Hval Huse Hsend Hget Hlack.
  assert (Hp : entry_payload (JDict top) e =
               Raise (KeyError (if dict_contains "Value" fields
                                then "Previous" else "Value"))).
  { destruct (currency e) as [| b | z | f | s | xs | xs] eqn:Hcode;
      try discriminate.
    simpl in Hget.
    unfold entry_payload. rewrite Hcode. simpl.
    unfold dict_getitem at 1. rewrite Hval.
    simpl. unfold dict_contains at 1. rewrite Hget.
    unfold dict_getitem at 1. rewrite Hget. simpl.
    unfold dict_contains in *. unfold dict_getitem.
    destruct (dict_get "Value" fields) as [v|]; [|reflexivity].
    destruct (dict_get "Previous" fields) as [p|]; [discriminate|reflexivity]. }
  rewrite notify_eq, Hvals.
  rewrite (notify_loop_raises_at w top valute before after e _ st
             Hval Huse Hsend Hp).
  split; [reflexivity|]. now apply new_events_app.
Qed.

Lemma notify_incomplete_rate_entry_witness :
  fst (notify world_fine
         (JDict [("Valute",
                  JDict [("USD", usd_info);
                         ("GBP", JDict [("Value", JFloat 114.5)])])])
         sample_state)
    = Raise (KeyError "Previous") /\
  new_events sample_state
    (snd (notify world_fine
            (JDict [("Valute",
                     JDict [("USD", usd_info);
                            ("GBP", JDict [("Value", JFloat 114.5)])])])
            sample_state))
    = [Emit "update" usd_payload "s1" None].
Proof.
  apply (notify_incomplete_rate_entry world_fine
           [("Valute",
             JDict [("USD", usd_info);
                    ("GBP", JDict [("Value", JFloat 114.5)])])]
           [("USD", usd_info); ("GBP", JDict [("Value", JFloat 114.5)])]
           [("Value", JFloat 114.5)]
           [mkEntry (mkClient "s1") (JStr "USD")] [mkEntry (mkClient "s3") (JStr "USD")]
           (mkEntry (mkClient "s2") (JStr "GBP")) sample_state);
    try reflexivity.
  intros e' Hin n name data. reflexivity.
Defined.

(** ** The polling thread, turn after turn *)

Lemma cycle_delivers
  (w : World) (top valute : dict json) (response : Response) (st : State) :
  dict_get "Valute" top = Some (JDict valute) ->
  rates_usable valute (dict_values (registry st)) = true ->
  sends_return w (dict_values (registry st)) ->
  requests_get w (gets st) rates_url = Ok response ->
  json_result response = Ok (JDict top) ->
  cycle w st =
  (Ok tt,
   mkState (currency_observer st) (S (gets st))
     (emits st
      + List.length (expected_sends valute (dict_values (registry st))))
     (trace st
      ++ ([Get rates_url]
          ++ map sent_ok (expected_sends valute (dict_values (registry st)))
          ++ [Sleep 10]))).
Proof.
  intros Hval Huse Hsend Hget Hjson.
  rewrite cycle_eq, get_currency_rates_eq, Hget, Hjson, notify_eq.
  change (registry (after_get st)) with (registry st).
  rewrite (notify_loop_delivers w top valute _ Hval Huse Hsend (after_get st)).
  unfold time_sleep, log, after_get. simpl.
  now rewrite <- !app_assoc.
Qed.

Lemma currency_updater_delivers
  (w : World) (top valute : dict json) (turns : nat) :
  forall st,
    dict_get "Valute" top = Some (JDict valute) ->
    rates_usable valute (dict_values (registry st)) = true ->
    sends_return w (dict_values (registry st)) ->
    (forall i, i < turns ->
       exists response,
         requests_get w (gets st + i) rates_url = Ok response /\
         json_result response = Ok (JDict top)) ->
    exists st',
      currency_updater w turns st = (Ok tt, st') /\
      trace st' =
        trace st
        ++ List.concat
             (repeat ([Get rates_url]
                      ++ map sent_ok
                           (expected_sends valute (dict_values (registry st)))
                      ++ [Sleep 10]) turns).
Proof.
  induction turns as [|turns IH]; intros st Hval Huse Hsend Hfetch.
  - exists st. split; [reflexivity|]. simpl. now rewrite app_nil_r.
  - destruct (Hfetch 0) as [response [Hget Hjson]]; [lia|].
    rewrite Nat.add_0_r in Hget.
    pose proof (cycle_delivers w top valute response st
                  Hval Huse Hsend Hget Hjson) as Hc.
    set (st1 := mkState (currency_observer st) (S (gets st))
                  (emits st
                   + List.length
                       (expected_sends valute (dict_values (registry st))))
                  (trace st
                   ++ ([Get rates_url]
                       ++ map sent_ok
                            (expected_sends valute (dict_values (registry st)))
                       ++ [Sleep 10]))) in *.
    destruct (IH st1) as [st' [Hrun Htr]]; try assumption.
    { intros i Hi. simpl.
      replace (S (gets st + i)) with (gets st + S i) by lia.
      apply Hfetch. lia. }
    exists st'. split; [now rewrite (currency_updater_step w turns st st1 Hc)|].
    change (registry st1) with (registry st) in Htr.
    rewrite Htr. unfold st1.
    cbn [trace repeat List.concat]. now rewrite <- app_assoc.
Qed.

(** X13.  The thread does not look for changes.  When every registered
    code is hashable, the fetch returns a well-formed document in every
    turn and the sends return, every subscriber whose code is in the
    document is sent its payload again in every turn, whether or not the
    rates differ from the turn before.  With the same document fetched
    [turns] times the trace is [turns] times request, the same sends,
    sleep 10. *)
Theorem polling_resends_every_turn
  (w : World) (top valute : dict json) (turns : nat) (st : State) :
  dict_get "Valute" top = Some (JDict valute) ->
  rates_usable valute (dict_values (registry st)) = true ->
  sends_return w (dict_values (registry st)) ->
  (forall i, i < turns ->
     exists response,
       requests_get w (gets st + i) rates_url = Ok response /\
       json_result response = Ok (JDict top)) ->
  exists st',
    currency_updater w turns st = (Ok tt, st') /\
    new_events st st' =
      List.concat
        (repeat ([Get rates_url]
                 ++ map sent_ok
                      (expected_sends valute (dict_values (registry st)))
                 ++ [Sleep 10]) turns).
Proof.
  intros Hval Huse Hsend Hfetch.
  destruct (currency_updater_delivers w top valute turns st
              Hval Huse Hsend Hfetch) as [st' [Hrun Htr]].
  exists st'. split; [assumption | now apply new_events_app].
Qed.

Lemma polling_resends_every_turn_witness :
  exists st',
    currency_updater world_fine 2 sample_state = (Ok tt, st') /\
    new_events sample_state st' =
      [Get rates_url;
       Emit "update" usd_payload "s1" None;
       Emit "update" usd_payload "s3" None;
       Sleep 10;
       Get rates_url;
       Emit "update" usd_payload "s1" None;
       Emit "update" usd_payload "s3" None;
       Sleep 10].
Proof.
  apply (polling_resends_every_turn world_fine
           [("Date", JStr "2024-05-08T11:30:00+03:00");
            ("Valute", JDict sample_valute)]
           sample_valute 2 sample_state).
  - reflexivity.
  - reflexivity.
  - intros e Hin n name data. reflexivity.
  - intros i Hi. eexists. split; reflexivity.
Defined.

Lemma polls_app (a b : list event) : polls (a ++ b) = polls a ++ polls b.
Proof. unfold polls. apply filter_app. Qed.

Lemma polls_rate_updates (data : json) (l : list Entry) (evs : list event) :
  Forall (rate_update data l) evs -> polls evs = [].
Proof.
  induction evs as [|ev evs IH]; intros H; [reflexivity|].
  inversion H as [|? ? Hev Hevs]; subst.
  destruct Hev as [e [valute [info [value [previous [raised [_ [_ [_ [_ [_ ->]]]]]]]]]]].
  simpl. now apply IH.
Qed.

(** What a turn adds to the trace: one request, then sends, then, when the
    turn returns, one sleep of 10. *)
Lemma cycle_polls (w : World) (st : State) :
  exists evs,
    trace (snd (cycle w st)) = trace st ++ evs /\
    ((fst (cycle w st) = Ok tt /\ polls evs = [Get rates_url; Sleep 10]) \/
     (exists x, fst (cycle w st) = Raise x /\ polls evs = [Get rates_url])).
Proof.
  rewrite cycle_eq, get_currency_rates_eq.
  destruct (requests_get w (gets st) rates_url) as [response|x].
  - destruct (json_result response) as [data|x].
    + rewrite notify_eq.
      destruct (notify_loop_updates w data
                  (dict_values (registry (after_get st))) (after_get st))
        as [evs [Htr [Hall _]]].
      pose proof (polls_rate_updates _ _ _ Hall) as Hp.
      destruct (for_each (dict_values (registry (after_get st)))
                  (notify_entry w data) (after_get st)) as [[[]|x] st2];
        simpl in Htr.
      * exists ([Get rates_url] ++ evs ++ [Sleep 10]). split.
        -- simpl. rewrite Htr. simpl. now rewrite <- !app_assoc.
        -- left. split; [reflexivity|].
           rewrite !polls_app, Hp. reflexivity.
      * exists ([Get rates_url] ++ evs). split.
        -- simpl. rewrite Htr. simpl. now rewrite <- app_assoc.
        -- right. exists x. split; [reflexivity|].
           rewrite polls_app, Hp. reflexivity.
    + exists [Get rates_url]. split; [reflexivity|].
      right. exists x. split; reflexivity.
  - exists [Get rates_url]. split; [reflexivity|].
    right. exists x. split; reflexivity.
Qed.

Lemma currency_updater_polls (w : World) (turns : nat) :
  forall st,
    exists evs k,
      trace (snd (currency_updater w turns st)) = trace st ++ evs /\
      ((fst (currency_updater w turns st) = Ok tt /\ k = turns /\
        polls evs = List.concat (repeat [Get rates_url; Sleep 10] k)) \/
       (exists x,
           fst (currency_updater w turns st) = Raise x /\ k < turns /\
           polls evs =
             List.concat (repeat [Get rates_url; Sleep 10] k)
             ++ [Get rates_url])).
Proof.
  induction turns as [|turns IH]; intros st.
  - exists [], 0. simpl. rewrite app_nil_r. split; [reflexivity|].
    left. repeat split.
  - destruct (cycle_polls w st) as [ev1 [Htr1 Hc]].
    simpl. unfold bind.
    destruct (cycle w st) as [[[]|x] st1]; simpl in Htr1, Hc.
    + destruct Hc as [[_ Hp1]|[x [Hx _]]]; [|discriminate].
      destruct (IH st1) as [evs [k [Htr Hk]]].
      exists (ev1 ++ evs), (S k). split.
      * rewrite Htr, Htr1. now rewrite <- app_assoc.
      * rewrite polls_app, Hp1.
        destruct Hk as [[Hok [-> Hp]]|[y [Hy [Hlt Hp]]]].
        -- left. split; [assumption|]. split; [reflexivity|].
           rewrite Hp. reflexivity.
        -- right. exists y. split; [assumption|]. split; [lia|].
           rewrite Hp. reflexivity.
    + destruct Hc as [[Hok _]|[y [Hy Hp1]]]; [discriminate|].
      exists ev1, 0. split; [simpl; exact Htr1|].
      right. exists x. split; [reflexivity|]. split; [lia|].
      rewrite Hp1. reflexivity.
Qed.

(** X14.  The thread never makes two requests without a sleep of 10
    between them, and never sleeps twice without a request between: for any
    world and any number of turns, its requests and sleeps read request,
    sleep 10, request, sleep 10, ... in full when every turn returned, and
    cut off right after a request when an exception ended the thread. *)
Theorem polling_pace (w : World) (turns : nat) (st : State) :
  exists k,
    (fst (currency_updater w turns st) = Ok tt /\ k = turns /\
     polls (new_events st (snd (currency_updater w turns st)))
       = List.concat (repeat [Get rates_url; Sleep 10] k)) \/
    (exists x,
        fst (currency_updater w turns st) = Raise x /\ k < turns /\
        polls (new_events st (snd (currency_updater w turns st)))
          = List.concat (repeat [Get rates_url; Sleep 10] k)
            ++ [Get rates_url]).
Proof.
  destruct (currency_updater_polls w turns st) as [evs [k [Htr Hk]]].
  exists k. rewrite (new_events_app _ _ _ Htr). exact Hk.
Qed.

Lemma for_each_ext {A : Type} (f g : A -> M unit) (l : list A) :
  (forall a st, f a st = g a st) ->
  forall st, for_each l f st = for_each l g st.
Proof.
  intros Hfg. induction l as [|a l IH]; intros st; simpl; [reflexivity|].
  unfold bind. rewrite Hfg.
  destruct (g a st) as [[[]|x] st1]; [apply IH | reflexivity].
Qed.

Lemma notify_same_answers (w1 w2 : World) (data : json) (st : State) :
  same_answers w1 w2 -> notify w1 data st = notify w2 data st.
Proof.
  intros [_ Hemit]. rewrite !notify_eq. apply for_each_ext.
  intros e st0. rewrite !notify_entry_payload.
  destruct (entry_payload data e) as [[p|]|x]; try reflexivity.
  rewrite !update_eq. now rewrite Hemit.
Qed.

Lemma cycle_same_answers (w1 w2 : World) (st : State) :
  same_answers w1 w2 -> cycle w1 st = cycle w2 st.
Proof.
  intros Hsame. rewrite !cycle_eq, !get_currency_rates_eq.
  pose proof (proj1 Hsame (gets st) rates_url) as Hget.
  destruct (requests_get w1 (gets st) rates_url) as [r1|x1],
           (requests_get w2 (gets st) rates_url) as [r2|x2];
    try contradiction.
  - rewrite Hget. destruct (json_result r2) as [data|x]; [|reflexivity].
    now rewrite (notify_same_answers w1 w2 data (after_get st) Hsame).
  - now subst.
Qed.

(** X16.  The status code of a response is never looked at: two worlds
    that differ only in the status codes of their responses, with the same
    exceptions, the same [json()] outcomes and the same answers to sends,
    give the same run of the thread, result and final state alike. *)
Theorem polling_ignores_status (w1 w2 : World) (turns : nat) (st : State) :
  same_answers w1 w2 ->
  currency_updater w1 turns st = currency_updater w2 turns st.
Proof.
  intros Hsame. revert st.
  induction turns as [|turns IH]; intros st; [reflexivity|].
  simpl. unfold bind. rewrite (cycle_same_answers w1 w2 st Hsame).
  destruct (cycle w2 st) as [[[]|x] st1]; [apply IH | reflexivity].
Qed.

Lemma polling_ignores_status_witness :
  currency_updater world_fine 3 sample_state
    = currency_updater world_error_with_rates 3 sample_state.
Proof.
  apply (polling_ignores_status world_fine world_error_with_rates 3
           sample_state).
  split.
  - intros n url. reflexivity.
  - intros n name data room. reflexivity.
Defined.

(** ** Connecting *)

(** X17.  Connecting does not subscribe: [handle_connect] makes exactly
    one send, event ['client_id'] with the session's own id, to the session
    that connected; it leaves the registry as it was, and raises exactly
    when that send raises.  A dispatch right after it sends that session no
    rate update as long as the session has not registered. *)
Theorem connect_does_not_subscribe
  (w : World) (data : json) (s : string) (st : State) :
  registry_wf (registry st) ->
  dict_contains s (registry st) = false ->
  registry (snd (handle_connect w s st)) = registry st /\
  new_events st (snd (handle_connect w s st)) =
    [Emit "client_id" (JDict [("id", JStr s)]) s
       (socketio_emit w (emits st) "client_id" (JDict [("id", JStr s)]) s)] /\
  fst (handle_connect w s st) =
    match socketio_emit w (emits st) "client_id" (JDict [("id", JStr s)]) s with
    | None => Ok tt
    | Some x => Raise x
    end /\
  filter (fun rd => String.eqb s (fst rd))
    (attempts (new_events (snd (handle_connect w s st))
                 (snd (notify w data (snd (handle_connect w s st)))))) = [].
Proof.
  intros Hwf Habs.
  assert (Hc : handle_connect w s st =
               (match socketio_emit w (emits st) "client_id"
                        (JDict [("id", JStr s)]) s with
                | None => Ok tt
                | Some x => Raise x
                end,
                after_emit st
                  (Emit "client_id" (JDict [("id", JStr s)]) s
                     (socketio_emit w (emits st) "client_id"
                        (JDict [("id", JStr s)]) s)))).
  { unfold handle_connect, emit, after_emit.
    destruct (socketio_emit w (emits st) "client_id" (JDict [("id", JStr s)]) s);
      reflexivity. }
  rewrite Hc. simpl.
  split; [reflexivity|]. split; [now apply new_events_app|].
  split; [reflexivity|].
  apply notify_not_for_strangers; assumption.
Qed.

Lemma connect_does_not_subscribe_witness :
  registry (snd (handle_connect world_fine "s7" sample_state))
    = registry sample_state /\
  new_events sample_state (snd (handle_connect world_fine "s7" sample_state))
    = [Emit "client_id" (JDict [("id", JStr "s7")]) "s7" None] /\
  filter (fun rd => String.eqb "s7" (fst rd))
    (attempts
       (new_events (snd (handle_connect world_fine "s7" sample_state))
          (snd (notify world_fine sample_data
                  (snd (handle_connect world_fine "s7" sample_state))))))
    = [].
Proof.
  destruct (connect_does_not_subscribe world_fine sample_data "s7"
              sample_state) as [H1 [H2 [_ H4]]].
  - exact registry_wf_sample.
  - reflexivity.
  - split; [exact H1|]. split; [exact H2 | exact H4].
Defined.

(** ** What one session gets from a dispatch *)

Lemma expected_sends_for_session
  (valute : dict json) (d : dict Entry) (s : string) :
  registry_wf d ->
  map snd (filter (fun rd => String.eqb s (fst rd))
             (expected_sends valute (dict_values d))) =
  match dict_get s d with
  | Some e =>
      match payload_for valute (currency e) with
      | Some p => [p]
      | None => []
      end
  | None => []
  end.
Proof.
  intros [Hwf Hall]. revert Hwf Hall. unfold dict_wf, dict_keys.
  induction d as [|[k e] d IH]; intros Hnd Hall; [reflexivity|].
  inversion Hnd as [|? ? Hnotin Hnd']; subst.
  inversion Hall as [|? ? Hk Hall']; subst. simpl in Hk.
  change (expected_sends valute (dict_values ((k, e) :: d)))
    with (match payload_for valute (currency e) with
          | Some p => [(sid (observer e), p)]
          | None => []
          end ++ expected_sends valute (dict_values d)).
  rewrite filter_app, map_app, (IH Hnd' Hall'). simpl dict_get.
  destruct (String.eqb_spec s k) as [->|Hne].
  - apply (proj2 (dict_get_none_iff k d)) in Hnotin. rewrite Hnotin.
    rewrite app_nil_r.
    destruct (payload_for valute (currency e)) as [p|]; [|reflexivity].
    simpl. rewrite Hk, String.eqb_refl. reflexivity.
  - destruct (payload_for valute (currency e)) as [p|]; [|reflexivity].
    simpl. rewrite Hk.
    destruct (String.eqb_spec s k); [contradiction | reflexivity].
Qed.

Lemma notify_delivered_to
  (w : World) (top valute : dict json) (st : State) (s : string) :
  registry_wf (registry st) ->
  dict_get "Valute" top = Some (JDict valute) ->
  rates_usable valute (dict_values (registry st)) = true ->
  sends_return w (dict_values (registry st)) ->
  delivered_to s (new_events st (snd (notify w (JDict top) st))) =
  match dict_get s (registry st) with
  | Some e =>
      match payload_for valute (currency e) with
      | Some p => [p]
      | None => []
      end
  | None => []
  end.
Proof.
  intros Hwf Hval Huse Hsend.
  assert (Hnew : new_events st (snd (notify w (JDict top) st)) =
                 map sent_ok
                   (expected_sends valute (dict_values (registry st)))).
  { apply new_events_app. rewrite notify_eq.
    now rewrite (notify_loop_delivers w top valute _ Hval Huse Hsend st). }
  rewrite Hnew. unfold delivered_to. rewrite deliveries_sent_ok.
  now apply expected_sends_for_session.
Qed.

(** X18.  What a dispatch of a well-formed snapshot hands to one session,
    when every registered code is hashable and the sends return: the
    single payload built from the snapshot entry of the code the registry
    holds for that session, when the snapshot has that code; nothing when
    it has not, and nothing for a session the registry does not hold. *)
Theorem notify_delivers_per_session
  (w : World) (top valute : dict json) (st : State) (s : string) :
  registry_wf (registry st) ->
  dict_get "Valute" top = Some (JDict valute) ->
  rates_usable valute (dict_values (registry st)) = true ->
  sends_return w (dict_values (registry st)) ->
  delivered_to s (new_events st (snd (notify w (JDict top) st))) =
  match dict_get s (registry st) with
  | Some e =>
      match payload_for valute (currency e) with
      | Some p => [p]
      | None => []
      end
  | None => []
  end.
Proof. apply notify_delivered_to. Qed.

Lemma notify_delivers_per_session_witness :
  delivered_to "s3"
    (new_events sample_state (snd (notify world_fine sample_data sample_state)))
    = [usd_payload].
Proof.
  apply (notify_delivers_per_session world_fine
           [("Date", JStr "2024-05-08T11:30:00+03:00");
            ("Valute", JDict sample_valute)]
           sample_valute sample_state "s3").
  - exact registry_wf_sample.
  - reflexivity.
  - reflexivity.
  - intros e Hin n name data. reflexivity.
Defined.

(** X19.  A new selection takes effect at once: after [register] for a
    session with any code, when the codes then registered (the new one
    included) are hashable and the sends return, the next dispatch of a
    well-formed snapshot hands that session the payload of the code just
    registered, when the snapshot has it, and nothing otherwise; the code
    the session had before plays no part. *)
Theorem reselect_takes_effect
  (w : World) (top valute : dict json) (o : Client) (code : json)
  (st : State) :
  registry_wf (registry st) ->
  dict_get "Valute" top = Some (JDict valute) ->
  rates_usable valute
    (dict_values (registry (snd (register o code st)))) = true ->
  sends_return w (dict_values (registry (snd (register o code st)))) ->
  delivered_to (sid o)
    (new_events (snd (register o code st))
       (snd (notify w (JDict top) (snd (register o code st))))) =
  match payload_for valute code with
  | Some p => [p]
  | None => []
  end.
Proof.
  intros Hwf Hval Huse Hsend.
  assert (Hwf' : registry_wf (registry (snd (register o code st)))).
  { rewrite registry_register. now apply registry_wf_setitem. }
  rewrite (notify_delivered_to w top valute _ (sid o) Hwf' Hval Huse Hsend).
  rewrite registry_register, dict_get_setitem, String.eqb_refl. reflexivity.
Qed.

Lemma reselect_takes_effect_witness :
  delivered_to "s1"
    (new_events (snd (register (mkClient "s1") (JStr "EUR") sample_state))
       (snd (notify world_fine sample_data
               (snd (register (mkClient "s1") (JStr "EUR") sample_state))))) =
  [JDict [("currency_code", JStr "EUR");
          ("current_rate", JFloat 98.25);
          ("previous_rate", JFloat 97.75)]].
Proof.
  apply (reselect_takes_effect world_fine
           [("Date", JStr "2024-05-08T11:30:00+03:00");
            ("Valute", JDict sample_valute)]
           sample_valute (mkClient "s1") (JStr "EUR") sample_state).
  - exact registry_wf_sample.
  - reflexivity.
  - reflexivity.
  - intros e Hin n name data. reflexivity.
Defined.
